(** * VQGAN trainer: the optimisation step and the run driver

    A shallow embedding of [trainer/trainer.py] (class [VQGANTrainer]).

    Conventions of the embedding.
    - Tensors hold exact rationals ([Q]); NaN, infinities and rounding are
      outside the model.  A scalar tensor is a [Q]; a flat tensor is a
      [list Q]; an image batch is a list of samples, each sample being the
      flattened (channel, height, width) block.
    - [torch.mean] of an empty tensor is NaN in torch; here [mean []] takes
      the value of [0 / 0] in [Q].  Statements that depend on the value of a
      mean carry a non-emptiness hypothesis.
    - Every call into a collaborator (generator, discriminator, perceptual
      scorer, autograd, optimiser, file writers) may raise.  An exception
      stops the method and leaves the trainer as mutated so far, exactly as
      an uncaught Python exception does.
    - The generator model's two helpers [adopt_weight] and
      [calculate_lambda] live in the [vqgan] package, which is not part of
      the sources at hand; the trainer takes them as part of the generator
      interface. *)

From Stdlib Require Import String Ascii DecimalString.
From Stdlib Require DecimalNat.
From Stdlib Require Import Bool ZArith QArith Qabs Lia List.
Import ListNotations.

Set Implicit Arguments.

(** ** Exceptions and results *)

Inductive exception : Type :=
| ZeroDivisionError
| RuntimeError (msg : string).

Inductive result (A : Type) : Type :=
| Ok (a : A)
| Raise (e : exception).

Arguments Ok {A} a.
Arguments Raise {A} e.

(** ** Tensor operations used by the trainer *)

Module Torch.

Definition Tensor := list Q.
Definition Sample := list Q.
Definition Batch := list Sample.

Definition sum (t : Tensor) : Q := fold_right Qplus 0%Q t.

(** [torch.mean]: sum of the elements over their number. *)
Definition mean (t : Tensor) : Q :=
  (sum t / inject_Z (Z.of_nat (length t)))%Q.

(** [F.relu]. *)
Definition relu (x : Q) : Q := if Qle_bool 0 x then x else 0%Q.

(** [torch.clamp(x, lo, hi)]: [min(max(x, lo), hi)]. *)
Definition clamp (x lo hi : Q) : Q :=
  let y := if Qle_bool lo x then x else lo in
  if Qle_bool y hi then y else hi.

(** Element-wise combination of two equally long sequences; a length
    mismatch is torch's size-mismatch [RuntimeError]. *)
Fixpoint zip_with {A B C : Type} (f : A -> B -> result C)
         (l : list A) (l' : list B) : result (list C) :=
  match l, l' with
  | [], [] => Ok []
  | a :: t, b :: t' =>
      match f a b with
      | Ok c =>
          match zip_with f t t' with
          | Ok r => Ok (c :: r)
          | Raise e => Raise e
          end
      | Raise e => Raise e
      end
  | _, _ => Raise (RuntimeError "size mismatch")
  end.

(** [a - b] on samples and on batches. *)
Definition sub_sample (a b : Sample) : result Sample :=
  zip_with (fun x y => Ok (x - y)%Q) a b.

Definition sub (a b : Batch) : result Batch := zip_with sub_sample a b.

(** [torch.abs] on a batch. *)
Definition abs (a : Batch) : Batch := map (map Qabs) a.

(** [c * t] for a Python float [c]. *)
Definition scale (c : Q) (t : Tensor) : Tensor := map (Qmult c) t.
Definition scale_batch (c : Q) (a : Batch) : Batch := map (scale c) a.

(** [p + a] where [p] has one value per sample (shape (B,1,1,1)) and
    [a] is a full batch (shape (B,C,H,W)): the per-sample value is
    broadcast over the sample's elements. *)
Definition add_broadcast (p : Tensor) (a : Batch) : result Batch :=
  zip_with (fun pi ai => Ok (map (Qplus pi) ai)) p a.

(** [.mean()] of a batch: over all of its elements. *)
Definition mean_batch (a : Batch) : Q := mean (concat a).

(** [torch.cat((a, b))] along the batch dimension. *)
Definition cat (a b : Batch) : Batch := a ++ b.

(** [t[:n]] along the batch dimension. *)
Definition take (n : nat) (a : Batch) : Batch := firstn n a.

End Torch.

Import Torch.

(** ** Python helpers *)

(** [a % b] on integers: raises on a zero divisor, otherwise the result has
    the sign of the divisor, as [Z.modulo] has. *)
Definition py_mod (a b : Z) : result Z :=
  if (b =? 0)%Z then Raise ZeroDivisionError else Ok (a mod b)%Z.

(** [str(n)] for a non-negative integer, as an f-string renders it. *)
Definition str (n : nat) : string := NilEmpty.string_of_uint (Nat.to_uint n).

Definition startswith_sep (s : string) : bool :=
  match s with
  | String c _ => Ascii.eqb c "/"
  | EmptyString => false
  end.

Fixpoint endswith_sep (s : string) : bool :=
  match s with
  | EmptyString => false
  | String c EmptyString => Ascii.eqb c "/"
  | String _ r => endswith_sep r
  end.

(** One round of the loop of [posixpath.join]. *)
Definition join_step (path b : string) : string :=
  if startswith_sep b then b
  else if (String.eqb path "" || endswith_sep path)%bool then (path ++ b)%string
  else (path ++ "/" ++ b)%string.

(** [os.path.join(a, *p)]. *)
Definition os_path_join (a : string) (p : list string) : string :=
  fold_left join_step p a.

Definition range (n : Z) : list nat := seq 0 (Z.to_nat n).

Definition enumerate {A : Type} (l : list A) : list (nat * A) :=
  combine (seq 0 (length l)) l.

(** ** The trainer and its collaborators *)

Section Trainer.

(** Opaque data of the tensor library: a network's parameter values, its
    gradient buffers, an optimiser's moving averages, the generator's
    quantisation indices and a rendered image grid. *)
Context {Weights Grads Moments Indices Frame : Type}.

(** A network: its parameters and their [.grad] buffers. *)
Record Net : Type := mkNet {
  params : Weights;
  grad : Grads
}.

(** The attributes of a [VQGANTrainer] instance.  [opt_vq] and [opt_disc]
    hold the moment statistics of the two Adam optimisers; the parameters
    they update are those of [vqgan] and [discriminator]. *)
Record VQGANTrainer : Type := mkTrainer {
  vqgan : Net;
  discriminator : Net;
  opt_vq : Moments;
  opt_disc : Moments;
  disc_factor : Q;
  disc_start : Z;
  perceptual_loss_factor : Q;
  rec_loss_factor : Q;
  expriment_save_dir : string;
  global_step : Z;
  sample_batch : option Batch;
  gif_images : list Frame;
  save_every : Z
}.

Definition set_vqgan (n : Net) (s : VQGANTrainer) : VQGANTrainer :=
  mkTrainer n (discriminator s) (opt_vq s) (opt_disc s) (disc_factor s)
    (disc_start s) (perceptual_loss_factor s) (rec_loss_factor s)
    (expriment_save_dir s) (global_step s) (sample_batch s) (gif_images s)
    (save_every s).

Definition set_discriminator (n : Net) (s : VQGANTrainer) : VQGANTrainer :=
  mkTrainer (vqgan s) n (opt_vq s) (opt_disc s) (disc_factor s)
    (disc_start s) (perceptual_loss_factor s) (rec_loss_factor s)
    (expriment_save_dir s) (global_step s) (sample_batch s) (gif_images s)
    (save_every s).

Definition set_opt_vq (m : Moments) (s : VQGANTrainer) : VQGANTrainer :=
  mkTrainer (vqgan s) (discriminator s) m (opt_disc s) (disc_factor s)
    (disc_start s) (perceptual_loss_factor s) (rec_loss_factor s)
    (expriment_save_dir s) (global_step s) (sample_batch s) (gif_images s)
    (save_every s).

Definition set_opt_disc (m : Moments) (s : VQGANTrainer) : VQGANTrainer :=
  mkTrainer (vqgan s) (discriminator s) (opt_vq s) m (disc_factor s)
    (disc_start s) (perceptual_loss_factor s) (rec_loss_factor s)
    (expriment_save_dir s) (global_step s) (sample_batch s) (gif_images s)
    (save_every s).

Definition set_global_step (n : Z) (s : VQGANTrainer) : VQGANTrainer :=
  mkTrainer (vqgan s) (discriminator s) (opt_vq s) (opt_disc s)
    (disc_factor s) (disc_start s) (perceptual_loss_factor s)
    (rec_loss_factor s) (expriment_save_dir s) n (sample_batch s)
    (gif_images s) (save_every s).

Definition set_sample_batch (b : option Batch) (s : VQGANTrainer)
  : VQGANTrainer :=
  mkTrainer (vqgan s) (discriminator s) (opt_vq s) (opt_disc s)
    (disc_factor s) (disc_start s) (perceptual_loss_factor s)
    (rec_loss_factor s) (expriment_save_dir s) (global_step s) b
    (gif_images s) (save_every s).

Definition set_gif_images (g : list Frame) (s : VQGANTrainer)
  : VQGANTrainer :=
  mkTrainer (vqgan s) (discriminator s) (opt_vq s) (opt_disc s)
    (disc_factor s) (disc_start s) (perceptual_loss_factor s)
    (rec_loss_factor s) (expriment_save_dir s) (global_step s)
    (sample_batch s) g (save_every s).

(** What the trainer leaves outside itself: files and console lines. *)
Inductive Event : Type :=
| CleanDirectory (path : string)
| SaveImage (images : Batch) (path : string) (nrow : Z)
| Print (epoch : Z) (epochs : Z) (index : Z) (batches : Z)
        (vq_loss gan_loss : Q)
| TorchSave (state_dict : Weights) (path : string)
| MimSave (path : string) (frames : list Frame) (fps : Z).

(** The trainer together with its surroundings. *)
Record World : Type := mkWorld {
  self : VQGANTrainer;
  output : list Event
}.

(** The two losses that are back-propagated. *)
Inductive Loss : Type := VqLoss | GanLoss.

(** The generator model ([self.vqgan]): its forward pass and its two
    helpers.  [calculate_lambda] differentiates the two losses it is
    given through the retained computation graph, which the trainer and
    the batch determine; they are passed along for that reason. *)
Record VQGAN : Type := mkVQGAN {
  forward : Weights -> Batch -> result (Batch * Indices * Q);
  adopt_weight : Q -> Z -> Z -> result Q;
  calculate_lambda : VQGANTrainer -> Batch -> Q -> Q -> result Q
}.

(** The rest of the tensor library as the trainer uses it.
    - [perceptual_loss]: the LPIPS scorer, one distance per sample;
    - [disc_forward]: the discriminator's forward pass, its scores
      flattened;
    - [zero_grad]: an optimiser's [zero_grad()] on its parameters'
      gradient buffers;
    - [backward]: [loss.backward()], which accumulates into the gradient
      buffers of both networks and into nothing else;
    - [adam_step]: an optimiser's [step()], which updates its own
      parameters and moments from their gradients;
    - [make_grid]: [torchvision.utils.make_grid] and the conversion to an
      array;
    - [write]: whether a file write succeeds, given what was written
      before. *)
Record Library : Type := mkLibrary {
  perceptual_loss : Batch -> Batch -> result Tensor;
  disc_forward : Weights -> Batch -> result Tensor;
  zero_grad : Grads -> result Grads;
  backward : Loss -> VQGANTrainer -> Batch -> result (Grads * Grads);
  adam_step : Weights -> Grads -> Moments -> result (Weights * Moments);
  make_grid : Batch -> result Frame;
  write : list Event -> Event -> result unit
}.

(** *** State and exceptions

    A method is a function of the world that returns the world it leaves
    and either a value or the exception it raised. *)
Definition M (A : Type) : Type := World -> World * result A.

Definition ret {A : Type} (a : A) : M A := fun w => (w, Ok a).

Definition bind {A B : Type} (m : M A) (k : A -> M B) : M B :=
  fun w =>
    match m w with
    | (w', Ok a) => k a w'
    | (w', Raise e) => (w', Raise e)
    end.

(** A call that reads its arguments only. *)
Definition call {A : Type} (r : result A) : M A := fun w => (w, r).

Definition get_self : M VQGANTrainer := fun w => (w, Ok (self w)).

Definition update (f : VQGANTrainer -> VQGANTrainer) : M unit :=
  fun w => (mkWorld (f (self w)) (output w), Ok tt).

Definition emit (e : Event) : M unit :=
  fun w => (mkWorld (self w) (output w ++ [e]), Ok tt).

Notation "x <- m ;; k" := (bind m (fun x => k))
  (at level 61, m at next level, right associativity).
Notation "' p <- m ;; k" := (bind m (fun x => let 'p := x in k))
  (at level 61, p pattern, m at next level, right associativity).
Notation "m ;; k" := (bind m (fun _ => k))
  (at level 61, right associativity).

Fixpoint for_each {A : Type} (l : list A) (body : A -> M unit) : M unit :=
  match l with
  | [] => ret tt
  | a :: l' => body a ;; for_each l' body
  end.

Variable G : VQGAN.
Variable T : Library.

(** A file write: it raises, or the file is there afterwards. *)
Definition save (e : Event) : M unit :=
  fun w =>
    match write T (output w) e with
    | Ok _ => (mkWorld (self w) (output w ++ [e]), Ok tt)
    | Raise x => (w, Raise x)
    end.

(** *** [__init__]

    The discriminator, the perceptual scorer and the two optimisers are
    built by the tensor library; the constructor stores them, empties the
    image directory and resets the bookkeeping attributes. *)
Definition init (model disc : Net) (opt_vq0 opt_disc0 : Moments)
           (disc_factor0 : Q) (disc_start0 : Z)
           (perceptual_loss_factor0 rec_loss_factor0 : Q)
           (save_every0 : Z) (experiment_dir : string) : World :=
  mkWorld
    (mkTrainer model disc opt_vq0 opt_disc0 disc_factor0 disc_start0
       perceptual_loss_factor0 rec_loss_factor0 experiment_dir
       0%Z None [] save_every0)
    [CleanDirectory (experiment_dir ++ "/reconstructed_imgs")%string].

(** *** [step] *)

(** Lines 135-137: the discriminator gate factor. *)
Definition gate_factor (s : VQGANTrainer) : result Q :=
  adopt_weight G (disc_factor s) (global_step s) (disc_start s).

(** Lines 114-146: the forward passes and the two losses.  Nothing here
    writes to the trainer. *)
Definition losses (imgs : Batch) : M (Batch * Q * Q) :=
  s <- get_self ;;
  (* Getting decoder output *)
  '(decoded_images, _, q_loss) <- call (forward G (params (vqgan s)) imgs) ;;
  (* VQ Loss *)
  perceptual <- call (perceptual_loss T imgs decoded_images) ;;
  diff <- call (sub imgs decoded_images) ;;
  let rec_loss := abs diff in
  perceptual_rec <-
    call (add_broadcast (scale (perceptual_loss_factor s) perceptual)
            (scale_batch (rec_loss_factor s) rec_loss)) ;;
  let perceptual_rec_loss := mean_batch perceptual_rec in
  (* Discriminator Loss *)
  disc_real <- call (disc_forward T (params (discriminator s)) imgs) ;;
  disc_fake <-
    call (disc_forward T (params (discriminator s)) decoded_images) ;;
  disc_factor <- call (gate_factor s) ;;
  let g_loss := (- mean disc_fake)%Q in
  lambda <- call (calculate_lambda G s imgs perceptual_rec_loss g_loss) ;;
  let vq_loss :=
    (perceptual_rec_loss + q_loss + disc_factor * lambda * g_loss)%Q in
  let d_loss_real := mean (map relu (map (fun x => 1 - x)%Q disc_real)) in
  let d_loss_fake := mean (map relu (map (fun x => 1 + x)%Q disc_fake)) in
  let gan_loss := (disc_factor * (1 # 2) * (d_loss_real + d_loss_fake))%Q in
  ret (decoded_images, vq_loss, gan_loss).

(** Lines 151-157: the two backward passes, each after clearing the
    gradients of the optimiser concerned. *)
Definition backward_passes (imgs : Batch) : M unit :=
  (* self.opt_vq.zero_grad() *)
  s <- get_self ;;
  g <- call (zero_grad T (grad (vqgan s))) ;;
  update (fun s => set_vqgan (mkNet (params (vqgan s)) g) s) ;;
  (* vq_loss.backward(retain_graph=True) *)
  s <- get_self ;;
  '(gv, gd) <- call (backward T VqLoss s imgs) ;;
  update (fun s =>
    set_discriminator (mkNet (params (discriminator s)) gd)
      (set_vqgan (mkNet (params (vqgan s)) gv) s)) ;;
  (* self.opt_disc.zero_grad() *)
  s <- get_self ;;
  g <- call (zero_grad T (grad (discriminator s))) ;;
  update (fun s => set_discriminator (mkNet (params (discriminator s)) g) s) ;;
  (* gan_loss.backward() *)
  s <- get_self ;;
  '(gv, gd) <- call (backward T GanLoss s imgs) ;;
  update (fun s =>
    set_discriminator (mkNet (params (discriminator s)) gd)
      (set_vqgan (mkNet (params (vqgan s)) gv) s)).

(** Lines 159-160: the two parameter updates. *)
Definition optimizer_steps : M unit :=
  (* self.opt_vq.step() *)
  s <- get_self ;;
  '(p, m) <- call (adam_step T (params (vqgan s)) (grad (vqgan s))
                     (opt_vq s)) ;;
  update (fun s => set_opt_vq m (set_vqgan (mkNet p (grad (vqgan s))) s)) ;;
  (* self.opt_disc.step() *)
  s <- get_self ;;
  '(p, m) <- call (adam_step T (params (discriminator s))
                     (grad (discriminator s)) (opt_disc s)) ;;
  update (fun s =>
    set_opt_disc m (set_discriminator (mkNet p (grad (discriminator s))) s)).

(** Everything [step] does before it touches a parameter. *)
Definition forward_and_backward (imgs : Batch) : M (Batch * Q * Q) :=
  r <- losses imgs ;;
  backward_passes imgs ;;
  ret r.

Definition step (imgs : Batch) : M (Batch * Q * Q) :=
  r <- forward_and_backward imgs ;;
  optimizer_steps ;;
  ret r.

(** *** [train] *)

Definition image_path (s : VQGANTrainer) (epoch index : nat) : string :=
  os_path_join (expriment_save_dir s)
    ["reconstructed_imgs";
     "epoch-" ++ str epoch ++ "_step-" ++ str index ++ ".jpg"]%string.

Definition checkpoint_path (s : VQGANTrainer) (epoch : nat) : string :=
  os_path_join (expriment_save_dir s)
    ["vqgan_epoch_" ++ str epoch ++ ".pt"]%string.

(** The body of the inner loop (lines 175-238) for one batch.  Moving the
    batch to the device does not change its contents. *)
Definition train_batch (epochs : Z) (batches : nat) (epoch index : nat)
           (imgs : Batch) : M unit :=
  '(decoded_images, vq_loss, gan_loss) <- step imgs ;;
  (* Updating global step *)
  update (fun s => set_global_step (global_step s + 1)%Z s) ;;
  s <- get_self ;;
  r <- call (py_mod (Z.of_nat index) (save_every s)) ;;
  if (r =? 0)%Z then
    let sb := match sample_batch s with
              | None => take 1 imgs
              | Some b => b
              end in
    update (set_sample_batch (Some sb)) ;;
    s <- get_self ;;
    '(reconstruction, _, _) <- call (forward G (params (vqgan s)) sb) ;;
    frame <- call (make_grid T (cat sb reconstruction)) ;;
    update (fun s => set_gif_images (gif_images s ++ [frame]) s) ;;
    let real_fake_images := cat (take 4 imgs) (take 4 decoded_images) in
    s <- get_self ;;
    save (SaveImage real_fake_images (image_path s epoch index) 4) ;;
    emit (Print (Z.of_nat epoch + 1) epochs (Z.of_nat index)
            (Z.of_nat batches) vq_loss gan_loss) ;;
    if (Z.of_nat index mod 100 =? 0)%Z then
      (* Saving model *)
      s <- get_self ;;
      save (TorchSave (params (vqgan s)) (checkpoint_path s epoch)) ;;
      s <- get_self ;;
      save (MimSave "movie.gif" (gif_images s) 5)
    else ret tt
  else ret tt.

(** [dataloader e] is what the data loader yields on its [e]-th pass,
    i.e. during epoch [e]. *)
Definition train_epoch (epochs : Z) (dataloader : nat -> list Batch)
           (epoch : nat) : M unit :=
  for_each (enumerate (dataloader epoch))
    (fun '(index, imgs) =>
       train_batch epochs (length (dataloader epoch)) epoch index imgs).

Definition train (epochs : Z) (dataloader : nat -> list Batch) : M unit :=
  for_each (range epochs) (train_epoch epochs dataloader).

End Trainer.

(** ** The generator's helpers *)

Module VQGANModel.

(** Modelled from the spec: the helper [adopt_weight] of the generator model
    (package [vqgan], absent from the sources).  Section 4.2, item 4: the
    factor "equals the configured disc_factor constant once Global Step
    Counter >= disc_start threshold, else 0". *)
Definition adopt_weight (disc_factor : Q) (i threshold : Z) : Q :=
  if (threshold <=? i)%Z then disc_factor else 0%Q.

(** Modelled from the spec: the helper [calculate_lambda] of the generator
    model (package [vqgan], absent from the sources).  Section 4.2, item 6:
    it "compares the gradient magnitude of the reconstruction-perceptual
    loss against the gradient magnitude of the generator adversarial loss
    with respect to the last shared decoder layer's weights, and returns
    their ratio clamped to a bounded range (documented range: [0, 1e4])".
    The two magnitudes are what autograd reports. *)
Definition calculate_lambda (perceptual_grad_norm gan_grad_norm : Q) : Q :=
  clamp (perceptual_grad_norm / gan_grad_norm) 0 10000.

(** A generator model made of a forward pass, the gradient magnitudes that
    autograd finds for a trainer and a batch, and the two helpers above. *)
Definition make {Weights Grads Moments Indices Frame : Type}
           (fwd : Weights -> Batch -> result (Batch * Indices * Q))
           (grad_norms :
              @VQGANTrainer Weights Grads Moments Frame -> Batch -> Q * Q)
  : @VQGAN Weights Grads Moments Indices Frame :=
  mkVQGAN fwd
    (fun d i t => Ok (adopt_weight d i t))
    (fun s imgs _ _ =>
       Ok (calculate_lambda (fst (grad_norms s imgs))
             (snd (grad_norms s imgs)))).

End VQGANModel.

(** ** Deterministic stand-ins for the collaborators

    Parameters, gradients and moments are integers, a rendered grid is the
    batch it shows.  The generator reproduces its input with quantisation
    loss 0, the scorer reports distance 0 for every sample, the
    discriminator scores every sample 1. *)

Module Stub.

Definition fwd (_ : Z) (imgs : Batch) : result (Batch * unit * Q) :=
  Ok (imgs, tt, 0%Q).

Definition generator : @VQGAN Z Z Z unit Batch :=
  VQGANModel.make fwd (fun _ _ => (1%Q, 1%Q)).

(** [scorer_ok = false]: the perceptual scorer raises.  The optimiser's
    [step()] raises when its moments are negative, which lets a run start
    with one optimiser that is bound to fail. *)
Definition library (scorer_ok : bool) : @Library Z Z Z Batch :=
  mkLibrary
    (fun imgs _ =>
       if scorer_ok then Ok (map (fun _ => 0%Q) imgs)
       else Raise (RuntimeError "perceptual scorer failed"))
    (fun _ imgs => Ok (map (fun _ => 1%Q) imgs))
    (fun _ => Ok 0%Z)
    (fun _ s _ =>
       Ok ((grad (vqgan s) + 1)%Z, (grad (discriminator s) + 1)%Z))
    (fun p g m =>
       if (m <? 0)%Z then Raise (RuntimeError "optimizer step failed")
       else Ok ((p - g)%Z, (m + 1)%Z))
    (fun b => Ok b)
    (fun _ _ => Ok tt).

(** A trainer as [__init__] leaves it, with the given thresholds, both loss
    weights 1 and the given initial moments of the discriminator's
    optimiser. *)
Definition trainer (disc_start0 save_every0 opt_disc0 : Z)
  : @World Z Z Z Batch :=
  init (mkNet 0%Z 0%Z) (mkNet 0%Z 0%Z) 0%Z opt_disc0 1%Q disc_start0
    1%Q 1%Q save_every0 "./experiments".

Definition image : Sample := [1 # 2; 1 # 4]%Q.

(** A data loader that yields [n] batches of [b] images on every pass. *)
Definition loader (n b : nat) (_ : nat) : list Batch :=
  repeat (repeat image b) n.

End Stub.

(** ** Observations on a trainer and on a run *)

Section Observations.

Context {Weights Grads Moments Indices Frame : Type}.

Local Abbreviation VQGANTrainer := (@VQGANTrainer Weights Grads Moments Frame).
Local Abbreviation World := (@World Weights Grads Moments Frame).
Local Abbreviation Event := (@Event Weights Frame).

(** What the optimisers learn: the parameters of the two networks and the
    moments of the two optimisers. *)
Definition learned (s : VQGANTrainer) : Weights * Weights * Moments * Moments :=
  (params (vqgan s), params (discriminator s), opt_vq s, opt_disc s).

(** The hyperparameters, fixed by [__init__]. *)
Definition hyperparameters (s : VQGANTrainer) : Q * Z * Q * Q * string * Z :=
  (disc_factor s, disc_start s, perceptual_loss_factor s, rec_loss_factor s,
   expriment_save_dir s, save_every s).

(** The paths of the checkpoints among some output, in writing order. *)
Definition checkpoint_paths (out : list Event) : list string :=
  flat_map (fun ev => match ev with TorchSave _ p => [p] | _ => [] end) out.

(** The paths of the visualisation images among some output. *)
Definition image_paths (out : list Event) : list string :=
  flat_map (fun ev => match ev with SaveImage _ p _ => [p] | _ => [] end) out.

(** The batches of a run in processing order, each with its epoch, the
    number of batches of that epoch and its index in the epoch. *)
Definition iterations (epochs : Z) (dataloader : nat -> list Batch)
  : list (nat * nat * nat * Batch) :=
  flat_map
    (fun epoch =>
       map (fun '(index, imgs) =>
              (epoch, length (dataloader epoch), index, imgs))
         (enumerate (dataloader epoch)))
    (range epochs).

Variable G : @VQGAN Weights Grads Moments Indices Frame.
Variable T : @Library Weights Grads Moments Frame.

Local Abbreviation VQGAN := (@VQGAN Weights Grads Moments Indices Frame).

Definition train_iteration (epochs : Z) (it : nat * nat * nat * Batch)
  : M unit :=
  let '(epoch, batches, index, imgs) := it in
  train_batch G T epochs batches epoch index imgs.

(** The [save_every] cadence: [index % self.save_every == 0]. *)
Definition cadence (s : VQGANTrainer) (index : nat) : bool :=
  (Z.of_nat index mod save_every s =? 0)%Z.

(** The nested test of line 221: [index % 100 == 0]. *)
Definition hundredth (index : nat) : bool :=
  (Z.of_nat index mod 100 =? 0)%Z.

(** The images and the checkpoints that the two tests of [train] schedule
    for a list of iterations. *)
Definition scheduled_images (s : VQGANTrainer)
           (its : list (nat * nat * nat * Batch)) : list string :=
  flat_map
    (fun '(epoch, _, index, _) =>
       if cadence s index then [image_path s epoch index] else [])
    its.

Definition scheduled_checkpoints (s : VQGANTrainer)
           (its : list (nat * nat * nat * Batch)) : list string :=
  flat_map
    (fun '(epoch, _, index, _) =>
       if (cadence s index && hundredth index)%bool
       then [checkpoint_path s epoch] else [])
    its.

(** The schedule in the words of the specification: a checkpoint on every
    100th occurrence of the [save_every] cadence, the occurrences of an
    epoch being counted [index / save_every]. *)
Definition every_hundredth_occurrence (s : VQGANTrainer) (index : nat) : bool :=
  (cadence s index &&
   ((Z.of_nat index / save_every s) mod 100 =? 0)%Z)%bool.

Definition claimed_checkpoints (s : VQGANTrainer)
           (its : list (nat * nat * nat * Batch)) : list string :=
  flat_map
    (fun '(epoch, _, index, _) =>
       if every_hundredth_occurrence s index
       then [checkpoint_path s epoch] else [])
    its.

(** The number of batches of a run. *)
Definition total_batches (epochs : Z) (dataloader : nat -> list Batch) : nat :=
  list_sum (map (fun epoch => length (dataloader epoch)) (range epochs)).

(** The generator model [G] with its [adopt_weight] answering [gate]
    whatever it is asked. *)
Definition with_gate (gate : result Q) : VQGAN :=
  mkVQGAN (forward G) (fun _ _ _ => gate) (calculate_lambda G).

(** A frame of the animation rendered from a given sample batch. *)
Definition rendered_from (sb : Batch) (f : Frame) : Prop :=
  exists p reconstruction idx q,
    forward G p sb = Ok (reconstruction, idx, q) /\
    make_grid T (cat sb reconstruction) = Ok f.

End Observations.

(** A directory name that [os.path.join] extends with a separator: not
    empty and not ending in one. *)
Definition plain_dir (dir : string) : Prop :=
  String.eqb dir "" = false /\ endswith_sep dir = false.

(** A tensor all of whose elements are zero. *)
Definition zeros (t : Tensor) : Prop := Forall (fun x => x == 0) t.

(** ** The data loader ([dataloader/load_dataloader.py]) *)

Module Dataloader.

Section Load.

(** What [load_mnist] builds.  [load_mnist] belongs to the [dataloader]
    package and is not among the sources; it is called with the four
    keyword arguments [batch_size], [image_size], [num_workers] and
    [save_path], in this order here. *)
Variable DataLoader : Type.
Variable load_mnist : Z -> Z -> Z -> string -> result DataLoader.


End Load.

End Dataloader.

(** ** More of the run driver *)

Section Driver.

Context {Weights Grads Moments Indices Frame : Type}.
Variable G : @VQGAN Weights Grads Moments Indices Frame.
Variable T : @Library Weights Grads Moments Frame.

Local Abbreviation World := (@World Weights Grads Moments Frame).
Local Abbreviation Event := (@Event Weights Frame).



End Driver.

(** A decimal digit. *)
Definition is_digit (c : ascii) : bool :=
  ((48 <=? nat_of_ascii c) && (nat_of_ascii c <=? 57))%nat.

Fixpoint all_digits (s : string) : bool :=
  match s with
  | EmptyString => true
  | String c r => is_digit c && all_digits r
  end.

(** The file name of a visualisation image and of a checkpoint, as the
    f-strings of lines 212 and 227 build them. *)
Definition image_name (epoch index : nat) : string :=
  ("epoch-" ++ str epoch ++ "_step-" ++ str index ++ ".jpg")%string.

Definition checkpoint_name (epoch : nat) : string :=
  ("vqgan_epoch_" ++ str epoch ++ ".pt")%string.

(** What tells one batch of a run from another: its epoch and its index in
    the epoch. *)
Definition iteration_key (it : nat * nat * nat * Batch) : nat * nat :=
  let '(epoch, _, index, _) := it in (epoch, index).

(** A tensor without negative elements. *)
Definition nonnegative (t : Tensor) : Prop := Forall (fun x => 0 <= x) t.

(** ** Facts *)

Section Facts.

Context {Weights Grads Moments Indices Frame : Type}.
Variable G : @VQGAN Weights Grads Moments Indices Frame.
Variable T : @Library Weights Grads Moments Frame.

Local Abbreviation World := (@World Weights Grads Moments Frame).

Ltac unfold_in H :=
  unfold step, forward_and_backward, losses, backward_passes,
    optimizer_steps, gate_factor, py_mod, image_path, checkpoint_path, bind,
    call, get_self, update, ret, emit, save in H.

Ltac reduce_in H :=
  cbn [self output vqgan discriminator opt_vq opt_disc disc_factor
       disc_start perceptual_loss_factor rec_loss_factor expriment_save_dir
       global_step sample_batch gif_images save_every params grad
       set_vqgan set_discriminator set_opt_vq set_opt_disc set_global_step
       set_sample_batch set_gif_images fst snd] in H.

Ltac reduce_goal :=
  cbn [self output vqgan discriminator opt_vq opt_disc disc_factor
       disc_start perceptual_loss_factor rec_loss_factor expriment_save_dir
       global_step sample_batch gif_images save_every params grad
       set_vqgan set_discriminator set_opt_vq set_opt_disc set_global_step
       set_sample_batch set_gif_images fst snd].

(** Case analysis along a run [H : m w = (w', r)]: every call that may
    raise is split into its two outcomes. *)
Ltac crunch H :=
  unfold_in H;
  repeat (reduce_in H;
          match type of H with
          | (_, _) = (_, _) =>
              apply pair_equal_spec in H;
              let E1 := fresh in let E2 := fresh in
              destruct H as [E1 E2]; try subst
          | context [match ?x with _ => _ end] =>
              lazymatch x with
              | context [match _ with _ => _ end] => fail
              | _ => destruct x eqn:?
              end
          end).

Lemma for_each_cons {A : Type} (a : A) (l : list A) (body : A -> M unit)
      (w : World) :
  for_each (a :: l) body w =
  match body a w with
  | (w1, Ok _) => for_each l body w1
  | (w1, Raise e) => (w1, Raise e)
  end.
Proof. reflexivity. Qed.

Lemma for_each_app {A : Type} (l l' : list A) (body : A -> M unit)
      (w : World) :
  for_each (l ++ l') body w =
  match for_each l body w with
  | (w1, Ok _) => for_each l' body w1
  | (w1, Raise e) => (w1, Raise e)
  end.
Proof.
  revert w. induction l as [|a l IH]; intro w; [reflexivity|].
  rewrite <- app_comm_cons, !for_each_cons.
  destruct (body a w) as [w1 [[]|e]]; [apply IH|reflexivity].
Qed.

Lemma for_each_map {A B : Type} (f : A -> B) (l : list A)
      (body : B -> M unit) (w : World) :
  for_each (map f l) body w = for_each l (fun a => body (f a)) w.
Proof.
  revert w. induction l as [|a l IH]; intro w; [reflexivity|].
  cbn [map]. rewrite !for_each_cons.
  destruct (body (f a) w) as [w1 [[]|e]]; [apply IH|reflexivity].
Qed.

Lemma for_each_ext {A : Type} (l : list A) (body body' : A -> M unit) :
  (forall a w, body a w = body' a w) ->
  forall w : World, for_each l body w = for_each l body' w.
Proof.
  intros E. induction l as [|a l IH]; intro w; [reflexivity|].
  rewrite !for_each_cons, E.
  destruct (body' a w) as [w1 [[]|e]]; [apply IH|reflexivity].
Qed.

Lemma train_epoch_iterations (epochs : Z) (dataloader : nat -> list Batch)
      (epoch : nat) (w : World) :
  train_epoch G T epochs dataloader epoch w =
  for_each
    (map (fun '(index, imgs) =>
            (epoch, length (dataloader epoch), index, imgs))
       (enumerate (dataloader epoch)))
    (train_iteration G T epochs) w.
Proof.
  unfold train_epoch. rewrite for_each_map. apply for_each_ext.
  intros [i x] w0. reflexivity.
Qed.

(** The nested loops of [train] visit the batches in the order of
    [iterations]. *)
Lemma train_iterations (epochs : Z) (dataloader : nat -> list Batch)
      (w : World) :
  train G T epochs dataloader w =
  for_each (iterations epochs dataloader) (train_iteration G T epochs) w.
Proof.
  unfold train, iterations. revert w.
  induction (range epochs) as [|e l IH]; intro w; [reflexivity|].
  cbn [flat_map]. rewrite for_each_app, for_each_cons.
  rewrite train_epoch_iterations.
  destruct (for_each _ _ w) as [w1 [[]|err]]; [apply IH|reflexivity].
Qed.

(** [losses] reads and never writes. *)
Lemma losses_pure (imgs : Batch) (w w' : World) r :
  losses G T imgs w = (w', r) -> w' = w.
Proof. intro H. crunch H; reflexivity. Qed.

(** The backward passes write gradient buffers only. *)
Lemma backward_passes_frame (imgs : Batch) (w w' : World) r :
  backward_passes T imgs w = (w', r) ->
  learned (self w') = learned (self w) /\
  hyperparameters (self w') = hyperparameters (self w) /\
  global_step (self w') = global_step (self w) /\
  sample_batch (self w') = sample_batch (self w) /\
  gif_images (self w') = gif_images (self w) /\
  output w' = output w.
Proof. intro H. crunch H; repeat split. Qed.

Lemma optimizer_steps_frame (w w' : World) r :
  optimizer_steps T w = (w', r) ->
  hyperparameters (self w') = hyperparameters (self w) /\
  global_step (self w') = global_step (self w) /\
  sample_batch (self w') = sample_batch (self w) /\
  gif_images (self w') = gif_images (self w) /\
  output w' = output w.
Proof. intro H. crunch H; repeat split. Qed.

Lemma forward_and_backward_frame (imgs : Batch) (w w' : World) r :
  forward_and_backward G T imgs w = (w', r) ->
  learned (self w') = learned (self w) /\
  hyperparameters (self w') = hyperparameters (self w) /\
  global_step (self w') = global_step (self w) /\
  sample_batch (self w') = sample_batch (self w) /\
  gif_images (self w') = gif_images (self w) /\
  output w' = output w.
Proof.
  unfold forward_and_backward, bind. intro H.
  destruct (losses G T imgs w) as [w1 [x|e]] eqn:L;
    apply losses_pure in L; subst w1.
  2:{ inversion H; subst. repeat split. }
  destruct (backward_passes T imgs w) as [w2 [[]|e]] eqn:B;
    apply backward_passes_frame in B; inversion H; subst; exact B.
Qed.

(** [step] leaves the hyperparameters, the step counter, the sample batch,
    the frame buffer and the files alone, whatever its outcome. *)
Lemma step_frame (imgs : Batch) (w w' : World) r :
  step G T imgs w = (w', r) ->
  hyperparameters (self w') = hyperparameters (self w) /\
  global_step (self w') = global_step (self w) /\
  sample_batch (self w') = sample_batch (self w) /\
  gif_images (self w') = gif_images (self w) /\
  output w' = output w.
Proof.
  unfold step, bind. intro H.
  destruct (forward_and_backward G T imgs w) as [w1 [x|e]] eqn:F;
    apply forward_and_backward_frame in F;
    destruct F as (_ & F1 & F2 & F3 & F4 & F5).
  2:{ inversion H; subst. repeat split; assumption. }
  destruct (optimizer_steps T w1) as [w2 [[]|e]] eqn:O;
    apply optimizer_steps_frame in O;
    destruct O as (O1 & O2 & O3 & O4 & O5);
    inversion H; subst; repeat split; congruence.
Qed.

(** [step] returns what [losses] computed once both backward passes and
    both updates went through. *)
Lemma step_returns (imgs : Batch) (w w1 w' : World) x :
  losses G T imgs w = (w, Ok x) ->
  backward_passes T imgs w = (w1, Ok tt) ->
  optimizer_steps T w1 = (w', Ok tt) ->
  step G T imgs w = (w', Ok x).
Proof.
  intros L B O. unfold step, forward_and_backward, bind.
  rewrite L. cbv beta iota. rewrite B. cbv beta iota delta [ret].
  rewrite O. reflexivity.
Qed.

(** The value of [losses] in terms of what the collaborators return. *)
Lemma losses_returns (imgs : Batch) (w : World)
      decoded idx q_loss p diff pr dr df gate lam :
  forward G (params (vqgan (self w))) imgs = Ok (decoded, idx, q_loss) ->
  perceptual_loss T imgs decoded = Ok p ->
  sub imgs decoded = Ok diff ->
  add_broadcast (scale (perceptual_loss_factor (self w)) p)
    (scale_batch (rec_loss_factor (self w)) (abs diff)) = Ok pr ->
  disc_forward T (params (discriminator (self w))) imgs = Ok dr ->
  disc_forward T (params (discriminator (self w))) decoded = Ok df ->
  gate_factor G (self w) = Ok gate ->
  calculate_lambda G (self w) imgs (mean_batch pr) (- mean df) = Ok lam ->
  losses G T imgs w =
  (w, Ok (decoded,
          (mean_batch pr + q_loss + gate * lam * - mean df)%Q,
          (gate * (1 # 2) *
           (mean (map relu (map (fun x => 1 - x) dr)) +
            mean (map relu (map (fun x => 1 + x) df))))%Q)).
Proof.
  intros Hf Hp Hd Hb Hr Hk Hg Hl.
  unfold losses, bind, call, get_self, ret.
  rewrite Hf. cbn. rewrite Hp, Hd. cbn. rewrite Hb, Hr, Hk, Hg. cbn.
  rewrite Hl. reflexivity.
Qed.

(** *** Tensors of zeros *)

Lemma sum_zeros (t : Tensor) : zeros t -> sum t == 0.
Proof.
  induction 1 as [|x t Hx _ IH]; cbn; [reflexivity|].
  rewrite Hx, IH. reflexivity.
Qed.

Lemma mean_zeros (t : Tensor) : zeros t -> mean t == 0.
Proof.
  intro H. unfold mean. rewrite (sum_zeros H). unfold Qdiv.
  apply Qmult_0_l.
Qed.

Lemma scale_zeros (c : Q) (t : Tensor) : zeros t -> zeros (scale c t).
Proof.
  unfold zeros, scale. intro H. apply Forall_map.
  eapply Forall_impl; [|exact H]. cbn. intros x Hx.
  rewrite Hx. apply Qmult_0_r.
Qed.

Lemma abs_zeros (a : Batch) : Forall zeros a -> Forall zeros (abs a).
Proof.
  unfold abs. intro H. apply Forall_map.
  eapply Forall_impl; [|exact H]. cbn. intros t Ht.
  unfold zeros. apply Forall_map.
  eapply Forall_impl; [|exact Ht]. cbn. intros x Hx.
  rewrite Hx. reflexivity.
Qed.

Lemma scale_batch_zeros (c : Q) (a : Batch) :
  Forall zeros a -> Forall zeros (scale_batch c a).
Proof.
  unfold scale_batch. intro H. apply Forall_map.
  eapply Forall_impl; [|exact H]. intros t. apply scale_zeros.
Qed.

Lemma add_broadcast_zeros (p : Tensor) (a r : Batch) :
  add_broadcast p a = Ok r -> zeros p -> Forall zeros a -> Forall zeros r.
Proof.
  unfold add_broadcast. revert a r.
  induction p as [|x p IH]; intros [|t a] r E Hp Ha; cbn in E;
    try discriminate.
  - inversion E. constructor.
  - match type of E with
    | match ?z with _ => _ end = _ => destruct z as [r'|] eqn:Z
    end; [|discriminate].
    inversion E; subst. inversion Hp; subst. inversion Ha; subst.
    constructor; [|eapply IH; eauto].
    unfold zeros. apply Forall_map.
    eapply Forall_impl; [|eassumption]. cbn. intros y Hy.
    rewrite Hy. rewrite Qplus_0_r. assumption.
Qed.

Lemma concat_zeros (a : Batch) : Forall zeros a -> zeros (concat a).
Proof.
  unfold zeros. induction 1; cbn; [constructor|].
  apply Forall_app. split; assumption.
Qed.

(** *** The two losses *)

(** C1.  When the collaborators return, the generator loss that [step]
    returns is the reconstruction-perceptual loss plus the quantisation loss
    plus gate factor times lambda times the generator adversarial loss.
    The reconstruction-perceptual loss is the mean of
    [perceptual_loss_factor * perceptual + rec_loss_factor * |imgs -
    decoded|], the adversarial loss is minus the mean of the
    discriminator's score of the reconstruction.  With quantisation loss,
    perceptual distance, reconstruction difference and gate factor all
    zero, the generator loss is zero. *)
Theorem step_generator_loss (imgs : Batch) (w w1 w' : World)
        decoded idx q_loss p diff pr dr df gate lam :
  forward G (params (vqgan (self w))) imgs = Ok (decoded, idx, q_loss) ->
  perceptual_loss T imgs decoded = Ok p ->
  sub imgs decoded = Ok diff ->
  add_broadcast (scale (perceptual_loss_factor (self w)) p)
    (scale_batch (rec_loss_factor (self w)) (abs diff)) = Ok pr ->
  disc_forward T (params (discriminator (self w))) imgs = Ok dr ->
  disc_forward T (params (discriminator (self w))) decoded = Ok df ->
  gate_factor G (self w) = Ok gate ->
  calculate_lambda G (self w) imgs (mean_batch pr) (- mean df) = Ok lam ->
  backward_passes T imgs w = (w1, Ok tt) ->
  optimizer_steps T w1 = (w', Ok tt) ->
  let perceptual_rec_loss := mean_batch pr in
  let g_loss := (- mean df)%Q in
  exists vq_loss gan_loss,
    step G T imgs w = (w', Ok (decoded, vq_loss, gan_loss)) /\
    vq_loss = (perceptual_rec_loss + q_loss + gate * lam * g_loss)%Q /\
    (q_loss == 0 -> zeros p -> Forall zeros diff -> gate == 0 ->
     concat pr <> [] ->
     vq_loss == 0).
Proof.
  intros Hf Hp Hd Hb Hr Hk Hg Hl HB HO prl g_loss.
  do 2 eexists. split; [|split].
  - eapply step_returns; [|exact HB|exact HO].
    eapply losses_returns; eassumption.
  - reflexivity.
  - intros Hq Zp Zd Zg _.
    assert (Z : mean_batch pr == 0).
    { apply mean_zeros, concat_zeros.
      eapply add_broadcast_zeros; [exact Hb| |].
      - apply scale_zeros, Zp.
      - apply scale_batch_zeros, abs_zeros, Zd. }
    rewrite Z, Hq, Zg. ring.
Qed.

(** C2.  When the collaborators return, the discriminator loss that [step]
    returns is gate factor times 0.5 times the sum of the two hinge terms
    [mean(relu(1 - disc_real))] and [mean(relu(1 + disc_fake))]; with a zero
    gate factor it is zero whatever the scores. *)
Theorem step_discriminator_loss (imgs : Batch) (w w1 w' : World)
        decoded idx q_loss p diff pr dr df gate lam :
  forward G (params (vqgan (self w))) imgs = Ok (decoded, idx, q_loss) ->
  perceptual_loss T imgs decoded = Ok p ->
  sub imgs decoded = Ok diff ->
  add_broadcast (scale (perceptual_loss_factor (self w)) p)
    (scale_batch (rec_loss_factor (self w)) (abs diff)) = Ok pr ->
  disc_forward T (params (discriminator (self w))) imgs = Ok dr ->
  disc_forward T (params (discriminator (self w))) decoded = Ok df ->
  gate_factor G (self w) = Ok gate ->
  calculate_lambda G (self w) imgs (mean_batch pr) (- mean df) = Ok lam ->
  backward_passes T imgs w = (w1, Ok tt) ->
  optimizer_steps T w1 = (w', Ok tt) ->
  let d_loss_real := mean (map relu (map (fun x => 1 - x) dr)) in
  let d_loss_fake := mean (map relu (map (fun x => 1 + x) df)) in
  exists vq_loss gan_loss,
    step G T imgs w = (w', Ok (decoded, vq_loss, gan_loss)) /\
    gan_loss = (gate * (1 # 2) * (d_loss_real + d_loss_fake))%Q /\
    (gate == 0 -> dr <> [] -> df <> [] -> gan_loss == 0).
Proof.
  intros Hf Hp Hd Hb Hr Hk Hg Hl HB HO d_real d_fake.
  do 2 eexists. split; [|split].
  - eapply step_returns; [|exact HB|exact HO].
    eapply losses_returns; eassumption.
  - reflexivity.
  - intros Zg _ _. rewrite Zg. ring.
Qed.

(** *** One batch of the run *)

Lemma hyperparameters_inv (s s' : @VQGANTrainer Weights Grads Moments Frame) :
  hyperparameters s' = hyperparameters s ->
  disc_factor s' = disc_factor s /\ disc_start s' = disc_start s /\
  perceptual_loss_factor s' = perceptual_loss_factor s /\
  rec_loss_factor s' = rec_loss_factor s /\
  expriment_save_dir s' = expriment_save_dir s /\
  save_every s' = save_every s.
Proof. unfold hyperparameters. intro H. inversion H. repeat split. Qed.

Ltac after_step Hs :=
  let F := fresh "F" in
  let F' := fresh "F" in
  pose proof Hs as F; apply step_frame in F;
  destruct F as (Hhyper & Hcount & Hsample & Hgif & Hout);
  pose proof Hhyper as F'; apply hyperparameters_inv in F';
  destruct F' as (Hdf & Hds & Hplf & Hrlf & Hdir & Hsave).

(** Splits a run [H] of [train_batch] at the outcome [Hs] of its [step];
    when [step] returned, the rest of the run is expressed over the world
    before the batch and split into its cases. *)
Ltac open_batch H Hs :=
  unfold train_batch, bind in H;
  match type of H with
  | context [step G T ?imgs ?w] =>
      destruct (step G T imgs w) as [w1 [[[dec vq] gan]|err]] eqn:Hs
  end;
  [ after_step Hs; unfold_in H; reduce_in H;
    repeat match goal with
           | E : ?f (self _) = ?f (self _) |- _ => rewrite E in H
           | E : output _ = output _ |- _ => rewrite E in H
           end;
    crunch H
  | apply pair_equal_spec in H; destruct H; subst; after_step Hs ].

(** Expresses the goal over the world before the batch. *)
Ltac frame_goal :=
  unfold hyperparameters, cadence, hundredth, image_path, checkpoint_path;
  reduce_goal;
  repeat match goal with
         | E : _ (self _) = _ |- _ => rewrite E
         | E : output _ = output _ |- _ => rewrite E
         | E : (_ =? _)%Z = _ |- _ => rewrite E
         end.

(** The counter moves by one exactly when [step] returned, and the
    hyperparameters never move. *)
Lemma train_batch_counter epochs n e i imgs (w w' : World) r :
  train_batch G T epochs n e i imgs w = (w', r) ->
  hyperparameters (self w') = hyperparameters (self w) /\
  match step G T imgs w with
  | (_, Ok _) => global_step (self w') = (global_step (self w) + 1)%Z
  | (_, Raise err) =>
      global_step (self w') = global_step (self w) /\ r = Raise err
  end.
Proof.
  intro H. open_batch H Hs.
  all: frame_goal; repeat split; reflexivity.
Qed.

(** What a batch that ran to its end has written. *)
Lemma train_batch_output epochs n e i imgs (w w' : World) :
  train_batch G T epochs n e i imgs w = (w', Ok tt) ->
  save_every (self w) <> 0%Z /\
  image_paths (output w') =
    image_paths (output w) ++
    (if cadence (self w) i then [image_path (self w) e i] else []) /\
  checkpoint_paths (output w') =
    checkpoint_paths (output w) ++
    (if (cadence (self w) i && hundredth i)%bool
     then [checkpoint_path (self w) e] else []).
Proof.
  intro H. remember (Ok tt) as r eqn:R. open_batch H Hs; try discriminate.
  all: match goal with
       | E : (save_every _ =? 0)%Z = false |- _ =>
           pose proof (proj1 (Z.eqb_neq _ _) E)
       end.
  all: frame_goal; unfold image_paths, checkpoint_paths.
  all: rewrite ?flat_map_app; cbn [flat_map app andb]; rewrite ?app_nil_r.
  all: repeat split; try reflexivity; try assumption.
Qed.

(** What a batch writes, whatever its outcome: at most one image, on the
    cadence, holding the first four images of the batch and the first four
    of the reconstruction that [step] returned; at most one checkpoint,
    holding the generator's parameters. *)
Lemma train_batch_events epochs n e i imgs (w w' : World) r :
  train_batch G T epochs n e i imgs w = (w', r) ->
  exists new,
    output w' = output w ++ new /\
    (forall images path nrow,
        In (SaveImage images path nrow) new ->
        cadence (self w) i = true /\
        path = image_path (self w) e i /\ nrow = 4%Z /\
        exists w1 dec vq gan,
          step G T imgs w = (w1, Ok (dec, vq, gan)) /\
          images = cat (take 4 imgs) (take 4 dec)) /\
    (forall state_dict path,
        In (TorchSave state_dict path) new ->
        cadence (self w) i = true /\ hundredth i = true /\
        path = checkpoint_path (self w) e /\
        state_dict = params (vqgan (self w'))).
Proof.
  intro H. open_batch H Hs.
  all: reduce_goal; rewrite ?Hout; rewrite <- ?app_assoc.
  all: first [ eexists; split; [reflexivity|]
             | exists []; split; [symmetry; apply app_nil_r|] ].
  all: split; [intros ? ? ? HIn | intros ? ? HIn]; cbn [In app] in HIn.
  all: repeat (destruct HIn as [HIn|HIn]; try discriminate HIn).
  all: try contradiction.
  all: inversion HIn; subst; frame_goal; repeat split.
  all: do 4 eexists; split; reflexivity.
Qed.

(** The sample batch and the frame buffer across one batch, whatever its
    outcome.  On the cadence the sample batch becomes (or stays) [sb] and
    the one frame added is rendered from [sb]. *)
Lemma train_batch_sample epochs n e i imgs (w w' : World) r :
  train_batch G T epochs n e i imgs w = (w', r) ->
  let sb := match sample_batch (self w) with
            | Some b => b
            | None => take 1 imgs
            end in
  (r = Ok tt -> cadence (self w) i = true ->
   sample_batch (self w') = Some sb) /\
  (sample_batch (self w') = sample_batch (self w) /\
   gif_images (self w') = gif_images (self w)
   \/
   cadence (self w) i = true /\ sample_batch (self w') = Some sb /\
   (gif_images (self w') = gif_images (self w) \/
    exists f, gif_images (self w') = gif_images (self w) ++ [f] /\
              rendered_from G T sb f)).
Proof.
  intro H. open_batch H Hs.
  all: frame_goal; cbv zeta iota.
  all: split; [try (intros; congruence); try (intros _ ?; congruence)|].
  all: try (left; split; congruence).
  all: right; repeat split; try reflexivity.
  all: try (left; reflexivity).
  all: right; eexists; split; [reflexivity|].
  all: unfold rendered_from; do 4 eexists; split; eassumption.
Qed.

(** *** A whole run *)

Lemma length_enumerate {A : Type} (l : list A) :
  length (enumerate l) = length l.
Proof.
  unfold enumerate. rewrite length_combine, length_seq. apply Nat.min_id.
Qed.

Lemma length_iterations epochs dataloader :
  length (iterations epochs dataloader) = total_batches epochs dataloader.
Proof.
  unfold iterations, total_batches.
  induction (range epochs) as [|e l IH]; [reflexivity|].
  cbn [flat_map map list_sum]. rewrite length_app, length_map.
  rewrite length_enumerate, IH. reflexivity.
Qed.

(** Over any stretch of iterations the hyperparameters stay and the counter
    never decreases; when the stretch completes, the counter has advanced by
    its length. *)
Lemma run_counter epochs its (w w' : World) r :
  for_each its (train_iteration G T epochs) w = (w', r) ->
  hyperparameters (self w') = hyperparameters (self w) /\
  (global_step (self w) <= global_step (self w'))%Z /\
  (r = Ok tt ->
   global_step (self w') = (global_step (self w) + Z.of_nat (length its))%Z).
Proof.
  revert w. induction its as [|[[[e n] i] imgs] its IH]; intros w H.
  - cbn in H. inversion H; subst. repeat split; [lia | intros _; cbn; lia].
  - rewrite for_each_cons in H. cbn [train_iteration] in H.
    destruct (train_batch G T epochs n e i imgs w) as [w1 r1] eqn:B.
    apply train_batch_counter in B. destruct B as [Bh Bc].
    destruct (step G T imgs w) as [w2 [x|err]].
    + destruct r1 as [[]|err1].
      * apply IH in H. destruct H as (Hh & Hle & Hok).
        split; [congruence|]. split; [lia|].
        intro R. rewrite (Hok R), Bc. cbn [length]. lia.
      * inversion H; subst. split; [assumption|]. split; [lia|discriminate].
    + destruct Bc as [Bc ->]. inversion H; subst.
      split; [assumption|]. split; [lia|discriminate].
Qed.

(** C5.  The counter is 0 after construction; a batch whose [step] returned
    moves it by exactly one, whether or not the batch is visualised or
    checkpointed and whatever happens afterwards; a run never lowers it, and
    a run that completes has moved it by the number of batches of all its
    epochs, one epoch continuing where the previous one stopped. *)
Theorem global_step_counts :
  (forall model disc o1 o2 df ds plf rlf se dir,
      global_step
        (self (@init Weights Grads Moments Frame model disc o1 o2 df ds
                 plf rlf se dir)) = 0%Z) /\
  (forall epochs n e i imgs (w w' : World) r,
      train_batch G T epochs n e i imgs w = (w', r) ->
      match step G T imgs w with
      | (_, Ok _) => global_step (self w') = (global_step (self w) + 1)%Z
      | (_, Raise _) => global_step (self w') = global_step (self w)
      end) /\
  (forall epochs dataloader epoch (w w' : World) r,
      train_epoch G T epochs dataloader epoch w = (w', r) ->
      (global_step (self w) <= global_step (self w'))%Z /\
      (r = Ok tt ->
       global_step (self w') =
       (global_step (self w) + Z.of_nat (length (dataloader epoch)))%Z)) /\
  (forall epochs dataloader (w w' : World) r,
      train G T epochs dataloader w = (w', r) ->
      (global_step (self w) <= global_step (self w'))%Z /\
      (r = Ok tt ->
       global_step (self w') =
       (global_step (self w) +
        Z.of_nat (total_batches epochs dataloader))%Z)).
Proof.
  split; [reflexivity|]. split; [|split].
  - intros epochs n e i imgs w w' r H.
    apply train_batch_counter in H. destruct H as [_ H].
    destruct (step G T imgs w) as [w1 [x|err]]; [exact H|apply H].
  - intros epochs dataloader epoch w w' r H.
    rewrite train_epoch_iterations in H.
    apply run_counter in H. destruct H as (_ & Hle & Hok).
    split; [exact Hle|]. intro R. rewrite (Hok R).
    rewrite length_map, length_enumerate. reflexivity.
  - intros epochs dataloader w w' r H.
    rewrite train_iterations in H. apply run_counter in H.
    destruct H as (_ & Hle & Hok). split; [exact Hle|].
    intro R. rewrite (Hok R), length_iterations. reflexivity.
Qed.

(** C10.  In a run that starts with the counter at 0, the world [wk] in
    which the batch number [k] (counting from 0) is processed has the
    counter at [k]: [step] computes its gate factor as
    [adopt_weight(disc_factor, k, disc_start)], it behaves as the step whose
    gate is that value, the counter still reads [k] when [step] is over, and
    it reads [k + 1] only after the batch's [step] has returned.  The first
    batch ([k = 0], [wk = w0]) is gated with counter 0. *)
Theorem gate_reads_counter_before_increment
        epochs dataloader (w0 wk : World) pre e n i imgs post :
  global_step (self w0) = 0%Z ->
  iterations epochs dataloader = pre ++ (e, n, i, imgs) :: post ->
  for_each pre (train_iteration G T epochs) w0 = (wk, Ok tt) ->
  let k := Z.of_nat (length pre) in
  let gate :=
    adopt_weight G (disc_factor (self w0)) k (disc_start (self w0)) in
  train G T epochs dataloader w0 =
    for_each ((e, n, i, imgs) :: post) (train_iteration G T epochs) wk /\
  global_step (self wk) = k /\
  gate_factor G (self wk) = gate /\
  step G T imgs wk = step (with_gate G gate) T imgs wk /\
  (forall w1 r, step G T imgs wk = (w1, r) -> global_step (self w1) = k) /\
  (forall w1 x w2 r,
      step G T imgs wk = (w1, Ok x) ->
      train_batch G T epochs n e i imgs wk = (w2, r) ->
      global_step (self w2) = (k + 1)%Z).
Proof.
  intros H0 Hits Hpre k gate.
  pose proof Hpre as C. apply run_counter in C.
  destruct C as (Hh & _ & Hk). specialize (Hk eq_refl).
  rewrite H0, Z.add_0_l in Hk. fold k in Hk.
  apply hyperparameters_inv in Hh. destruct Hh as (Hdf & Hds & _).
  assert (Hgate : gate_factor G (self wk) = gate).
  { unfold gate_factor, gate. rewrite Hdf, Hds, Hk. reflexivity. }
  split; [|split; [exact Hk|split; [exact Hgate|split; [|split]]]].
  - rewrite train_iterations, Hits, for_each_app, Hpre. reflexivity.
  - unfold step, forward_and_backward, losses, bind, get_self.
    unfold gate_factor in *. cbn [with_gate forward adopt_weight
                                    calculate_lambda].
    rewrite Hgate. reflexivity.
  - intros w1 r S. apply step_frame in S. destruct S as (_ & S & _).
    congruence.
  - intros w1 x w2 r S B. apply train_batch_counter in B.
    destruct B as [_ B]. rewrite S in B. rewrite B, Hk. reflexivity.
Qed.

(** *** Files written by a run *)

Lemma schedule_hyperparameters
      (s s' : @VQGANTrainer Weights Grads Moments Frame) its :
  hyperparameters s' = hyperparameters s ->
  scheduled_images s' its = scheduled_images s its /\
  scheduled_checkpoints s' its = scheduled_checkpoints s its.
Proof.
  intro H. apply hyperparameters_inv in H.
  destruct H as (_ & _ & _ & _ & Hdir & Hsave).
  unfold scheduled_images, scheduled_checkpoints, cadence, image_path,
    checkpoint_path. rewrite Hdir, Hsave. split; reflexivity.
Qed.

(** The images and checkpoints of a stretch of iterations that completes
    are those scheduled, in order. *)
Lemma run_output epochs its (w w' : World) :
  for_each its (train_iteration G T epochs) w = (w', Ok tt) ->
  image_paths (output w') =
    image_paths (output w) ++ scheduled_images (self w) its /\
  checkpoint_paths (output w') =
    checkpoint_paths (output w) ++ scheduled_checkpoints (self w) its.
Proof.
  revert w. induction its as [|[[[e n] i] imgs] its IH]; intros w H.
  - cbn in H. inversion H; subst. cbn. rewrite !app_nil_r. split; reflexivity.
  - rewrite for_each_cons in H. cbn [train_iteration] in H.
    destruct (train_batch G T epochs n e i imgs w) as [w1 [[]|err]] eqn:B;
      [|discriminate].
    pose proof B as C. apply train_batch_counter in C. destruct C as [Hh _].
    apply train_batch_output in B. destruct B as (_ & Bi & Bc).
    apply IH in H. destruct H as [Hi Hc].
    destruct (schedule_hyperparameters its Hh) as [Si Sc].
    rewrite Hi, Hc, Bi, Bc, Si, Sc.
    unfold scheduled_images, scheduled_checkpoints. cbn [flat_map].
    rewrite <- !app_assoc. split; reflexivity.
Qed.

Lemma string_app_assoc (a b c : string) :
  ((a ++ b) ++ c = a ++ b ++ c)%string.
Proof. induction a as [|x a IH]; cbn; [reflexivity|]. rewrite IH. reflexivity. Qed.

Lemma endswith_sep_app (a b : string) :
  b <> EmptyString -> endswith_sep (a ++ b) = endswith_sep b.
Proof.
  intro Hb. induction a as [|x a IH]; [reflexivity|].
  cbn [append endswith_sep]. destruct (a ++ b)%string eqn:E; [|exact IH].
  destruct a; cbn in E; [contradiction|discriminate].
Qed.

Lemma checkpoint_path_plain (s : @VQGANTrainer Weights Grads Moments Frame)
      (epoch : nat) :
  plain_dir (expriment_save_dir s) ->
  checkpoint_path s epoch =
  (expriment_save_dir s ++ "/vqgan_epoch_" ++ str epoch ++ ".pt")%string.
Proof.
  intros [Hn He]. unfold checkpoint_path, os_path_join, join_step.
  cbn [fold_left].
  change (startswith_sep ("vqgan_epoch_" ++ str epoch ++ ".pt")) with false.
  rewrite Hn, He. reflexivity.
Qed.

Lemma image_path_plain (s : @VQGANTrainer Weights Grads Moments Frame)
      (epoch index : nat) :
  plain_dir (expriment_save_dir s) ->
  image_path s epoch index =
  (expriment_save_dir s ++ "/reconstructed_imgs/epoch-" ++ str epoch
     ++ "_step-" ++ str index ++ ".jpg")%string.
Proof.
  intros [Hn He]. unfold image_path, os_path_join, join_step.
  cbn [fold_left].
  change (startswith_sep "reconstructed_imgs") with false.
  change (startswith_sep
            ("epoch-" ++ str epoch ++ "_step-" ++ str index ++ ".jpg"))
    with false.
  rewrite Hn, He. cbn [orb].
  rewrite endswith_sep_app by discriminate.
  change (endswith_sep ("/" ++ "reconstructed_imgs")) with false.
  replace (String.eqb (expriment_save_dir s ++ "/" ++ "reconstructed_imgs") "")
    with false by (destruct (expriment_save_dir s); reflexivity).
  cbn [orb]. rewrite string_app_assoc. reflexivity.
Qed.

(** C4 (as amended).  A run that completes has written a checkpoint for
    exactly those batches whose index in their epoch passes both tests,
    [index % save_every == 0] and [index % 100 == 0], in order, each at the
    path [os.path.join(experiment_dir, "vqgan_epoch_<epoch>.pt")]; whatever
    the outcome of a batch, a checkpoint it writes passes both tests and
    holds the generator's parameters only.  For a directory name that is not
    empty and does not end in a separator the path reads
    [<experiment_dir>/vqgan_epoch_<epoch>.pt]. *)
Theorem checkpoint_written_on_both_tests :
  (forall epochs dataloader (w w' : World),
      train G T epochs dataloader w = (w', Ok tt) ->
      checkpoint_paths (output w') =
      checkpoint_paths (output w) ++
      scheduled_checkpoints (self w) (iterations epochs dataloader)) /\
  (forall epochs n e i imgs (w w' : World) r,
      train_batch G T epochs n e i imgs w = (w', r) ->
      exists new,
        output w' = output w ++ new /\
        forall state_dict path,
          In (TorchSave state_dict path) new ->
          (Z.of_nat i mod save_every (self w) =? 0)%Z = true /\
          (Z.of_nat i mod 100 =? 0)%Z = true /\
          path = checkpoint_path (self w) e /\
          state_dict = params (vqgan (self w'))) /\
  (forall (s : @VQGANTrainer Weights Grads Moments Frame) epoch,
      plain_dir (expriment_save_dir s) ->
      checkpoint_path s epoch =
      (expriment_save_dir s ++ "/vqgan_epoch_" ++ str epoch ++ ".pt")%string).
Proof.
  split; [|split].
  - intros epochs dataloader w w' H. rewrite train_iterations in H.
    apply run_output in H. apply H.
  - intros epochs n e i imgs w w' r H.
    apply train_batch_events in H. destruct H as (new & Hn & _ & Hc).
    exists new. split; [exact Hn|]. exact Hc.
  - intros s epoch. apply checkpoint_path_plain.
Qed.

(** C8 (as amended).  A run that completes has written a visualisation
    image for exactly those batches whose index in their epoch satisfies
    [index % save_every == 0], in order, each at the path
    [os.path.join(experiment_dir, "reconstructed_imgs",
    "epoch-<epoch>_step-<index>.jpg")]; whatever the outcome of a batch, an
    image it writes is on the cadence, has four columns and holds the first
    four images of the batch followed by the first four reconstructed ones,
    that is [min 4 B] of each for a batch and a reconstruction of [B]
    samples.  For a directory name that is not empty and does not end in a
    separator the path reads
    [<experiment_dir>/reconstructed_imgs/epoch-<epoch>_step-<index>.jpg]. *)
Theorem image_written_on_cadence :
  (forall epochs dataloader (w w' : World),
      train G T epochs dataloader w = (w', Ok tt) ->
      image_paths (output w') =
      image_paths (output w) ++
      scheduled_images (self w) (iterations epochs dataloader)) /\
  (forall epochs n e i imgs (w w' : World) r,
      train_batch G T epochs n e i imgs w = (w', r) ->
      exists new,
        output w' = output w ++ new /\
        forall images path nrow,
          In (SaveImage images path nrow) new ->
          (Z.of_nat i mod save_every (self w) =? 0)%Z = true /\
          path = image_path (self w) e i /\ nrow = 4%Z /\
          exists w1 dec vq gan,
            step G T imgs w = (w1, Ok (dec, vq, gan)) /\
            images = cat (take 4 imgs) (take 4 dec) /\
            length images =
            (Nat.min 4 (length imgs) + Nat.min 4 (length dec))%nat) /\
  (forall (s : @VQGANTrainer Weights Grads Moments Frame) epoch index,
      plain_dir (expriment_save_dir s) ->
      image_path s epoch index =
      (expriment_save_dir s ++ "/reconstructed_imgs/epoch-" ++ str epoch
         ++ "_step-" ++ str index ++ ".jpg")%string).
Proof.
  split; [|split].
  - intros epochs dataloader w w' H. rewrite train_iterations in H.
    apply run_output in H. apply H.
  - intros epochs n e i imgs w w' r H.
    apply train_batch_events in H. destruct H as (new & Hn & Hi & _).
    exists new. split; [exact Hn|].
    intros images path nrow HIn.
    destruct (Hi _ _ _ HIn) as (Hc & Hp & Hr & w1 & dec & vq & gan & S & E).
    repeat split; try assumption.
    exists w1, dec, vq, gan. repeat split; try assumption.
    subst images. unfold cat, take. rewrite length_app, !length_firstn.
    reflexivity.
  - intros s epoch index. apply image_path_plain.
Qed.

(** *** The sample batch *)

(** The first batch of a run has index 0 in its epoch. *)
Lemma iterations_head epochs dataloader e n i x rest :
  iterations epochs dataloader = (e, n, i, x) :: rest -> i = 0%nat.
Proof.
  unfold iterations. induction (range epochs) as [|e0 l IH];
    cbn [flat_map]; [discriminate|].
  destruct (dataloader e0) as [|y tl]; [exact IH|].
  unfold enumerate. cbn [length seq combine map app].
  intro H. inversion H. reflexivity.
Qed.

(** Once the sample batch is set, no stretch of iterations changes it, and
    every frame the stretch appends is rendered from it. *)
Lemma run_sample_kept epochs its (w w' : World) r b :
  sample_batch (self w) = Some b ->
  for_each its (train_iteration G T epochs) w = (w', r) ->
  sample_batch (self w') = Some b /\
  exists fs,
    gif_images (self w') = gif_images (self w) ++ fs /\
    Forall (rendered_from G T b) fs.
Proof.
  revert w. induction its as [|[[[e n] i] imgs] its IH]; intros w Hb H.
  - cbn in H. inversion H; subst. split; [exact Hb|].
    exists []. rewrite app_nil_r. split; [reflexivity|constructor].
  - rewrite for_each_cons in H. cbn [train_iteration] in H.
    destruct (train_batch G T epochs n e i imgs w) as [w1 r1] eqn:B.
    apply train_batch_sample in B. cbv zeta in B. rewrite Hb in B.
    destruct B as [_ B].
    assert (K : sample_batch (self w1) = Some b /\
                exists fs, gif_images (self w1) = gif_images (self w) ++ fs /\
                           Forall (rendered_from G T b) fs).
    { destruct B as [[B1 B2]|(_ & B1 & [B2|(f & B2 & B3)])].
      - split; [exact B1|]. exists []. rewrite app_nil_r.
        split; [exact B2|constructor].
      - split; [exact B1|]. exists []. rewrite app_nil_r.
        split; [exact B2|constructor].
      - split; [exact B1|]. exists [f]. split; [exact B2|].
        constructor; [exact B3|constructor]. }
    destruct K as (K1 & fs1 & K2 & K3).
    destruct r1 as [[]|err].
    + destruct (IH _ K1 H) as (I1 & fs2 & I2 & I3).
      split; [exact I1|]. exists (fs1 ++ fs2).
      rewrite I2, K2, app_assoc. split; [reflexivity|].
      apply Forall_app. split; assumption.
    + inversion H; subst. split; [exact K1|]. exists fs1.
      split; assumption.
Qed.

(** A stretch of iterations that starts without a sample batch and with a
    batch of index 0: the sample batch, once there, is the first image of
    that batch, and every frame is rendered from it. *)
Lemma run_sample_first epochs e n x0 rest (w w' : World) r :
  sample_batch (self w) = None ->
  for_each ((e, n, 0%nat, x0) :: rest) (train_iteration G T epochs) w
  = (w', r) ->
  (r = Ok tt -> sample_batch (self w') = Some (take 1 x0)) /\
  (sample_batch (self w') = None /\
   gif_images (self w') = gif_images (self w)
   \/
   sample_batch (self w') = Some (take 1 x0) /\
   exists fs,
     gif_images (self w') = gif_images (self w) ++ fs /\
     Forall (rendered_from G T (take 1 x0)) fs).
Proof.
  intros Hn H. rewrite for_each_cons in H. cbn [train_iteration] in H.
  destruct (train_batch G T epochs n e 0 x0 w) as [w1 r1] eqn:B.
  apply train_batch_sample in B. cbv zeta in B. rewrite Hn in B.
  destruct B as [Bok B].
  assert (C : cadence (self w) 0 = true).
  { unfold cadence. cbn [Z.of_nat]. rewrite Zmod_0_l. reflexivity. }
  assert (K : sample_batch (self w1) = Some (take 1 x0) ->
              exists fs, gif_images (self w1) = gif_images (self w) ++ fs /\
                         Forall (rendered_from G T (take 1 x0)) fs).
  { intro S. destruct B as [[B1 B2]|(_ & B1 & [B2|(f & B2 & B3)])].
    - exists []. rewrite app_nil_r. split; [exact B2|constructor].
    - exists []. rewrite app_nil_r. split; [exact B2|constructor].
    - exists [f]. split; [exact B2|]. constructor; [exact B3|constructor]. }
  destruct r1 as [[]|err].
  - specialize (Bok eq_refl C). destruct (K Bok) as (fs1 & K2 & K3).
    destruct (@run_sample_kept epochs _ _ _ _ _ Bok H) as (I1 & fs2 & I2 & I3).
    split; [intros _; exact I1|]. right. split; [exact I1|].
    exists (fs1 ++ fs2). rewrite I2, K2, app_assoc. split; [reflexivity|].
    apply Forall_app. split; assumption.
  - inversion H; subst. split; [discriminate|].
    destruct B as [[B1 B2]|(_ & B1 & _)].
    + left. split; assumption.
    + right. split; [exact B1|]. exact (K B1).
Qed.

(** C6.  [__init__] leaves the sample batch empty.  A run from a trainer
    without a sample batch sets it while processing its first batch, which
    is the first to pass the test [index % save_every == 0] (its index is
    0), to the first image of that batch; it never holds anything else
    afterwards, and every frame appended for visualisation is rendered from
    that same sample batch.  A run from a trainer that has a sample batch
    keeps it and renders every frame from it. *)
Theorem sample_batch_fixed_once :
  (forall model disc o1 o2 df ds plf rlf se dir,
      sample_batch
        (self (@init Weights Grads Moments Frame model disc o1 o2 df ds
                 plf rlf se dir)) = None) /\
  (forall epochs dataloader (w w' : World) r e n i x0 rest,
      sample_batch (self w) = None ->
      iterations epochs dataloader = (e, n, i, x0) :: rest ->
      train G T epochs dataloader w = (w', r) ->
      i = 0%nat /\
      (r = Ok tt -> sample_batch (self w') = Some (take 1 x0)) /\
      (sample_batch (self w') = None /\
       gif_images (self w') = gif_images (self w)
       \/
       sample_batch (self w') = Some (take 1 x0) /\
       exists fs,
         gif_images (self w') = gif_images (self w) ++ fs /\
         Forall (rendered_from G T (take 1 x0)) fs)) /\
  (forall epochs dataloader (w w' : World) r b,
      sample_batch (self w) = Some b ->
      train G T epochs dataloader w = (w', r) ->
      sample_batch (self w') = Some b /\
      exists fs,
        gif_images (self w') = gif_images (self w) ++ fs /\
        Forall (rendered_from G T b) fs).
Proof.
  split; [reflexivity|]. split.
  - intros epochs dataloader w w' r e n i x0 rest Hn Hits H.
    pose proof (@iterations_head _ _ _ _ _ _ _ Hits) as ->.
    split; [reflexivity|].
    rewrite train_iterations, Hits in H.
    exact (@run_sample_first epochs _ _ _ _ _ _ _ Hn H).
  - intros epochs dataloader w w' r b Hb H.
    rewrite train_iterations in H.
    exact (@run_sample_kept epochs _ _ _ _ _ Hb H).
Qed.

(** *** Failure of a step *)

(** C7 (as amended).  Everything [step] does before the first optimiser
    update, the forward passes, the scoring, the two helpers and both
    backward passes, leaves the parameters of both networks and the moments
    of both optimisers as they were; a failure there is the failure of
    [step], so no parameter and no moment is changed by a step that fails
    before its updates, and a step that changed one has completed both
    backward passes.  In particular a failing perceptual scorer leaves the
    whole world untouched. *)
Theorem step_updates_after_backward (imgs : Batch) (w : World) :
  (forall w1 r,
      forward_and_backward G T imgs w = (w1, r) ->
      learned (self w1) = learned (self w)) /\
  (forall w1 e,
      forward_and_backward G T imgs w = (w1, Raise e) ->
      step G T imgs w = (w1, Raise e)) /\
  (forall w' r,
      step G T imgs w = (w', r) ->
      learned (self w') <> learned (self w) ->
      exists w1 x, forward_and_backward G T imgs w = (w1, Ok x)) /\
  (forall decoded idx q_loss e,
      forward G (params (vqgan (self w))) imgs = Ok (decoded, idx, q_loss) ->
      perceptual_loss T imgs decoded = Raise e ->
      step G T imgs w = (w, Raise e)).
Proof.
  assert (A : forall w1 e,
             forward_and_backward G T imgs w = (w1, Raise e) ->
             step G T imgs w = (w1, Raise e)).
  { intros w1 e F. unfold step, bind. rewrite F. reflexivity. }
  split; [|split; [exact A|split]].
  - intros w1 r F. apply forward_and_backward_frame in F. apply F.
  - intros w' r S N.
    destruct (forward_and_backward G T imgs w) as [w1 [x|e]] eqn:F;
      [exists w1, x; reflexivity|].
    exfalso. apply N. rewrite (A w1 e eq_refl) in S.
    inversion S; subst. apply forward_and_backward_frame in F. apply F.
  - intros decoded idx q_loss e Hf Hp.
    unfold step, forward_and_backward, losses, bind, call, get_self.
    rewrite Hf. cbv beta iota. rewrite Hp. reflexivity.
Qed.

(** *** More on [step] *)

(** What a [step] that returns has gone through. *)
Lemma step_inv (imgs : Batch) (w w' : World) dec vq gan :
  step G T imgs w = (w', Ok (dec, vq, gan)) ->
  exists idx q_loss p diff pr dr df gate lam w1,
    forward G (params (vqgan (self w))) imgs = Ok (dec, idx, q_loss) /\
    perceptual_loss T imgs dec = Ok p /\
    sub imgs dec = Ok diff /\
    add_broadcast (scale (perceptual_loss_factor (self w)) p)
      (scale_batch (rec_loss_factor (self w)) (abs diff)) = Ok pr /\
    disc_forward T (params (discriminator (self w))) imgs = Ok dr /\
    disc_forward T (params (discriminator (self w))) dec = Ok df /\
    gate_factor G (self w) = Ok gate /\
    calculate_lambda G (self w) imgs (mean_batch pr) (- mean df) = Ok lam /\
    backward_passes T imgs w = (w1, Ok tt) /\
    optimizer_steps T w1 = (w', Ok tt) /\
    vq = (mean_batch pr + q_loss + gate * lam * - mean df)%Q /\
    gan = (gate * (1 # 2) *
           (mean (map relu (map (fun x => 1 - x) dr)) +
            mean (map relu (map (fun x => 1 + x) df))))%Q.
Proof.
  intro H. unfold step, forward_and_backward, bind, ret in H.
  destruct (losses G T imgs w) as [w0 [x|e]] eqn:L; [|discriminate].
  pose proof L as P. apply losses_pure in P. subst w0.
  destruct (backward_passes T imgs w) as [w1 [[]|e]] eqn:B; [|discriminate].
  destruct (optimizer_steps T w1) as [w2 [[]|e]] eqn:O; [|discriminate].
  inversion H; subst. clear H.
  unfold gate_factor. crunch L; try discriminate.
  match goal with E : Ok _ = Ok _ |- _ => inversion E; subst; clear E end.
  do 10 eexists. repeat split; try eassumption; reflexivity.
Qed.

(** *** Signs of the losses *)

Lemma relu_nonneg (x : Q) : 0 <= relu x.
Proof.
  unfold relu. destruct (Qle_bool 0 x) eqn:E; [|apply Qle_refl].
  apply Qle_bool_iff. exact E.
Qed.

Lemma relu_nonpos (x : Q) : x <= 0 -> relu x == 0.
Proof.
  intro H. unfold relu. destruct (Qle_bool 0 x) eqn:E; [|reflexivity].
  apply Qle_bool_iff in E. apply Qle_antisym; assumption.
Qed.

Lemma Qplus_nonneg (a b : Q) : 0 <= a -> 0 <= b -> 0 <= a + b.
Proof.
  intros Ha Hb. change (0 + 0 <= a + b).
  apply Qplus_le_compat; assumption.
Qed.

Lemma sum_nonneg (t : Tensor) : nonnegative t -> 0 <= sum t.
Proof.
  induction 1 as [|x t Hx _ IH]; cbn; [apply Qle_refl|].
  apply Qplus_nonneg; assumption.
Qed.

Lemma mean_nonneg (t : Tensor) : nonnegative t -> 0 <= mean t.
Proof.
  intro H. unfold mean, Qdiv. apply Qmult_le_0_compat.
  - apply sum_nonneg, H.
  - apply Qinv_le_0_compat. unfold Qle. cbn. lia.
Qed.

Lemma hinge_nonneg (f : Q -> Q) (t : Tensor) :
  0 <= mean (map relu (map f t)).
Proof.
  apply mean_nonneg. unfold nonnegative. rewrite map_map.
  apply Forall_map. apply Forall_forall. intros x _. apply relu_nonneg.
Qed.

Lemma hinge_zero (f : Q -> Q) (t : Tensor) :
  Forall (fun x => f x <= 0) t -> mean (map relu (map f t)) == 0.
Proof.
  intro H. apply mean_zeros. unfold zeros. rewrite map_map.
  apply Forall_map. eapply Forall_impl; [|exact H].
  cbn. intros x Hx. apply relu_nonpos, Hx.
Qed.

Lemma add_broadcast_nonneg (p : Tensor) (a r : Batch) :
  add_broadcast p a = Ok r ->
  nonnegative p -> Forall nonnegative a -> Forall nonnegative r.
Proof.
  unfold add_broadcast. revert a r.
  induction p as [|x p IH]; intros [|t a] r E Hp Ha; cbn in E;
    try discriminate.
  - inversion E. constructor.
  - match type of E with
    | match ?z with _ => _ end = _ => destruct z as [r'|] eqn:Z
    end; [|discriminate].
    inversion E; subst. inversion Hp; subst. inversion Ha; subst.
    constructor; [|eapply IH; eauto].
    unfold nonnegative. apply Forall_map.
    eapply Forall_impl; [|eassumption]. cbn. intros y Hy.
    apply Qplus_nonneg; assumption.
Qed.

Lemma concat_nonneg (a : Batch) :
  Forall nonnegative a -> nonnegative (concat a).
Proof.
  unfold nonnegative. induction 1; cbn; [constructor|].
  apply Forall_app. split; assumption.
Qed.

(** X1.  The discriminator loss that [step] returns is a hinge loss: it is
    never negative under a non-negative gate factor, and it vanishes when
    the discriminator scores every real patch at 1 or more and every
    reconstructed patch at -1 or less. *)
Theorem discriminator_loss_hinge (imgs : Batch) (w w' : World) dec vq gan :
  step G T imgs w = (w', Ok (dec, vq, gan)) ->
  exists dr df gate,
    disc_forward T (params (discriminator (self w))) imgs = Ok dr /\
    disc_forward T (params (discriminator (self w))) dec = Ok df /\
    gate_factor G (self w) = Ok gate /\
    (dr <> [] -> df <> [] -> 0 <= gate -> 0 <= gan) /\
    (dr <> [] -> df <> [] ->
     Forall (fun x => 1 <= x) dr -> Forall (fun x => x <= -1) df ->
     gan == 0).
Proof.
  intro H. apply step_inv in H.
  destruct H as (idx & q_loss & p & diff & pr & dr & df & gate & lam & w1 &
                 _ & _ & _ & _ & Hr & Hk & Hg & _ & _ & _ & _ & ->).
  exists dr, df, gate. repeat split; try assumption.
  - intros _ _ Hp. apply Qmult_le_0_compat.
    + apply Qmult_le_0_compat; [exact Hp|discriminate].
    + apply Qplus_nonneg; apply hinge_nonneg.
  - intros _ _ Hreal Hfake.
    assert (A : mean (map relu (map (fun x => 1 - x) dr)) == 0).
    { apply hinge_zero. eapply Forall_impl; [|exact Hreal].
      cbn. intros x Hx. unfold Qminus.
      apply (Qplus_le_compat 1 1 (- x) (- (1))); [apply Qle_refl|].
      apply Qopp_le_compat. exact Hx. }
    assert (B : mean (map relu (map (fun x => 1 + x) df)) == 0).
    { apply hinge_zero. eapply Forall_impl; [|exact Hfake].
      cbn. intros x Hx.
      apply (Qplus_le_compat 1 1 x (-1)); [apply Qle_refl|exact Hx]. }
    rewrite A, B. ring.
Qed.

(** X2.  During warm-up, when the gate factor is 0, the generator loss that
    [step] returns is the reconstruction-perceptual loss plus the
    quantisation loss: neither the discriminator's scores nor lambda enter
    it.  The reconstruction-perceptual loss itself is never negative when
    the two loss weights and the perceptual distances are not. *)
Theorem generator_loss_warm_up (imgs : Batch) (w w' : World) dec vq gan :
  step G T imgs w = (w', Ok (dec, vq, gan)) ->
  exists idx q_loss p diff pr gate,
    forward G (params (vqgan (self w))) imgs = Ok (dec, idx, q_loss) /\
    perceptual_loss T imgs dec = Ok p /\
    sub imgs dec = Ok diff /\
    add_broadcast (scale (perceptual_loss_factor (self w)) p)
      (scale_batch (rec_loss_factor (self w)) (abs diff)) = Ok pr /\
    gate_factor G (self w) = Ok gate /\
    (gate == 0 -> vq == mean_batch pr + q_loss) /\
    (concat pr <> [] ->
     0 <= perceptual_loss_factor (self w) -> 0 <= rec_loss_factor (self w) ->
     nonnegative p -> 0 <= mean_batch pr).
Proof.
  intro H. apply step_inv in H.
  destruct H as (idx & q_loss & p & diff & pr & dr & df & gate & lam & w1 &
                 Hf & Hp & Hd & Hb & _ & _ & Hg & _ & _ & _ & -> & _).
  exists idx, q_loss, p, diff, pr, gate. repeat split; try assumption.
  - intro Z. rewrite Z. ring.
  - intros _ Hplf Hrlf Hn. apply mean_nonneg, concat_nonneg.
    eapply add_broadcast_nonneg; [exact Hb| |].
    + unfold nonnegative, scale. apply Forall_map.
      eapply Forall_impl; [|exact Hn]. cbn. intros x Hx.
      apply Qmult_le_0_compat; assumption.
    + unfold scale_batch, abs, scale. rewrite map_map.
      apply Forall_map. apply Forall_forall. intros t _.
      unfold nonnegative. rewrite map_map. apply Forall_map.
      apply Forall_forall. intros x _.
      apply Qmult_le_0_compat; [exact Hrlf|apply Qabs_nonneg].
Qed.

(** *** More on one batch *)

(** Everything a batch that ran to its end has done after its [step]. *)
Lemma train_batch_completed epochs n e i imgs (w w' : World) :
  train_batch G T epochs n e i imgs w = (w', Ok tt) ->
  exists w1 dec vq gan,
    step G T imgs w = (w1, Ok (dec, vq, gan)) /\
    vqgan (self w') = vqgan (self w1) /\
    global_step (self w') = (global_step (self w) + 1)%Z /\
    if cadence (self w) i then
      exists sb reconstruction idx q f,
        sb = match sample_batch (self w) with
             | Some b => b
             | None => take 1 imgs
             end /\
        forward G (params (vqgan (self w1))) sb = Ok (reconstruction, idx, q) /\
        make_grid T (cat sb reconstruction) = Ok f /\
        sample_batch (self w') = Some sb /\
        gif_images (self w') = gif_images (self w) ++ [f] /\
        output w' =
        output w ++
        [SaveImage (cat (take 4 imgs) (take 4 dec)) (image_path (self w) e i) 4;
         Print (Z.of_nat e + 1) epochs (Z.of_nat i) (Z.of_nat n) vq gan] ++
        (if hundredth i
         then [TorchSave (params (vqgan (self w1))) (checkpoint_path (self w) e);
               MimSave "movie.gif" (gif_images (self w) ++ [f]) 5]
         else [])
    else
      sample_batch (self w') = sample_batch (self w) /\
      gif_images (self w') = gif_images (self w) /\
      output w' = output w.
Proof.
  intro H. remember (Ok tt) as r eqn:R. open_batch H Hs; try discriminate.
  all: do 4 eexists; split; [reflexivity|].
  all: frame_goal; cbv iota; rewrite <- ?app_assoc; cbn [app].
  all: repeat split; try reflexivity.
  all: do 5 eexists; repeat split; try eassumption; reflexivity.
Qed.

(** The progress line and the animation that a batch writes, whatever its
    outcome. *)
Lemma train_batch_reports epochs n e i imgs (w w' : World) r :
  train_batch G T epochs n e i imgs w = (w', r) ->
  exists new,
    output w' = output w ++ new /\
    (forall a b c d vq gan,
        In (Print a b c d vq gan) new ->
        a = (Z.of_nat e + 1)%Z /\ b = epochs /\ c = Z.of_nat i /\
        d = Z.of_nat n /\
        cadence (self w) i = true /\
        exists w1 dec, step G T imgs w = (w1, Ok (dec, vq, gan))) /\
    (forall path frames fps,
        In (MimSave path frames fps) new ->
        path = "movie.gif"%string /\ fps = 5%Z /\
        cadence (self w) i = true /\ hundredth i = true /\
        frames = gif_images (self w') /\
        (exists f, frames = gif_images (self w) ++ [f]) /\
        r = Ok tt /\
        In (TorchSave (params (vqgan (self w'))) (checkpoint_path (self w) e))
           new).
Proof.
  intro H. open_batch H Hs.
  all: reduce_goal; rewrite ?Hout; rewrite <- ?app_assoc.
  all: first [ eexists; split; [reflexivity|]
             | exists []; split; [symmetry; apply app_nil_r|] ].
  all: split; [intros ? ? ? ? ? ? HIn | intros ? ? ? HIn];
    pose proof HIn as HIn'; cbn [In app] in HIn.
  all: repeat (destruct HIn as [HIn|HIn]; try discriminate HIn).
  all: try contradiction.
  all: inversion HIn; subst; frame_goal; repeat split.
  all: try (do 2 eexists; reflexivity).
  all: try (eexists; reflexivity).
  all: repeat match goal with u : unit |- _ => destruct u end.
  all: try reflexivity.
  all: cbn [In app]; auto 6.
Qed.

(** *** The order of the batches *)

Lemma In_combine_seq {A : Type} (l : list A) (k i : nat) (x : A) :
  In (i, x) (combine (seq k (length l)) l) ->
  (k <= i)%nat /\ nth_error l (i - k) = Some x.
Proof.
  revert k. induction l as [|y l IH]; intros k H; [destruct H|].
  cbn [length seq combine In] in H. destruct H as [H|H].
  - inversion H; subst. rewrite Nat.sub_diag. split; [lia|reflexivity].
  - apply IH in H. destruct H as [Hk Hn]. split; [lia|].
    replace (i - k)%nat with (S (i - S k)) by lia. exact Hn.
Qed.

(** Every batch that a run processes is the [index]-th batch of the pass of
    an epoch below [epochs]. *)
Lemma iterations_in epochs dataloader e n i x :
  In (e, n, i, x) (iterations epochs dataloader) ->
  (Z.of_nat e < epochs)%Z /\ n = length (dataloader e) /\
  nth_error (dataloader e) i = Some x.
Proof.
  unfold iterations. intro H. apply in_flat_map in H.
  destruct H as (e0 & He & H). apply in_map_iff in H.
  destruct H as ([i0 x0] & E & H). inversion E; subst.
  unfold range in He. apply in_seq in He.
  unfold enumerate in H. apply In_combine_seq in H.
  rewrite Nat.sub_0_r in H. repeat split; [lia|apply H].
Qed.

(** The progress lines of a stretch of iterations, whatever its outcome,
    belong to iterations of the stretch. *)
Lemma run_reports epochs its (w w' : World) r :
  for_each its (train_iteration G T epochs) w = (w', r) ->
  exists new,
    output w' = output w ++ new /\
    forall a b c d vq gan,
      In (Print a b c d vq gan) new ->
      exists e n i x,
        In (e, n, i, x) its /\
        a = (Z.of_nat e + 1)%Z /\ b = epochs /\ c = Z.of_nat i /\
        d = Z.of_nat n.
Proof.
  revert w. induction its as [|[[[e n] i] imgs] its IH]; intros w H.
  - cbn in H. inversion H; subst. exists []. rewrite app_nil_r.
    split; [reflexivity|]. intros ? ? ? ? ? ? [].
  - rewrite for_each_cons in H. cbn [train_iteration] in H.
    destruct (train_batch G T epochs n e i imgs w) as [w1 r1] eqn:B.
    apply train_batch_reports in B.
    destruct B as (new1 & B1 & B2 & _).
    assert (K : forall a b c d vq gan,
               In (Print a b c d vq gan) new1 ->
               exists e0 n0 i0 x0,
                 In (e0, n0, i0, x0) ((e, n, i, imgs) :: its) /\
                 a = (Z.of_nat e0 + 1)%Z /\ b = epochs /\
                 c = Z.of_nat i0 /\ d = Z.of_nat n0).
    { intros a b c d vq gan HIn.
      destruct (B2 _ _ _ _ _ _ HIn) as (-> & -> & -> & -> & _).
      exists e, n, i, imgs. repeat split. left. reflexivity. }
    destruct r1 as [[]|err].
    + apply IH in H. destruct H as (new2 & H1 & H2).
      exists (new1 ++ new2). rewrite H1, B1, app_assoc.
      split; [reflexivity|].
      intros a b c d vq gan HIn. apply in_app_or in HIn.
      destruct HIn as [HIn|HIn]; [exact (K _ _ _ _ _ _ HIn)|].
      destruct (H2 _ _ _ _ _ _ HIn) as (e0 & n0 & i0 & x0 & Hin & Hrest).
      exists e0, n0, i0, x0. split; [right; exact Hin|exact Hrest].
    + inversion H; subst. exists new1. split; [exact B1|exact K].
Qed.

(** The frames of a stretch of iterations: appended only, and one per
    scheduled image when the stretch completes. *)
Lemma run_frames epochs its (w w' : World) r :
  for_each its (train_iteration G T epochs) w = (w', r) ->
  exists fs,
    gif_images (self w') = gif_images (self w) ++ fs /\
    (r = Ok tt -> length fs = length (scheduled_images (self w) its)).
Proof.
  revert w. induction its as [|[[[e n] i] imgs] its IH]; intros w H.
  - cbn in H. inversion H; subst. exists []. rewrite app_nil_r.
    split; reflexivity.
  - rewrite for_each_cons in H. cbn [train_iteration] in H.
    destruct (train_batch G T epochs n e i imgs w) as [w1 r1] eqn:B.
    destruct r1 as [[]|err].
    + pose proof B as C. apply train_batch_counter in C.
      destruct C as [Hh _].
      apply train_batch_completed in B.
      destruct B as (w2 & dec & vq & gan & _ & _ & _ & B).
      apply IH in H. destruct H as (fs & H1 & H2).
      destruct (schedule_hyperparameters its Hh) as [Si _].
      assert (U : scheduled_images (self w) ((e, n, i, imgs) :: its) =
                  (if cadence (self w) i then [image_path (self w) e i]
                   else []) ++ scheduled_images (self w) its)
        by reflexivity.
      rewrite U. clear U.
      destruct (cadence (self w) i).
      * destruct B as (sb & rec & idx & q & f & _ & _ & _ & _ & Bg & _).
        exists (f :: fs). rewrite H1, Bg, <- app_assoc.
        split; [reflexivity|]. intro R. cbn [length app].
        rewrite (H2 R), Si. reflexivity.
      * destruct B as (_ & Bg & _). exists fs. rewrite H1, Bg.
        split; [reflexivity|]. intro R. cbn [app].
        rewrite (H2 R), Si. reflexivity.
    + inversion H; subst. apply train_batch_sample in B. cbv zeta in B.
      destruct B as [_ [[_ B]|(_ & _ & [B|(f & B & _)])]].
      * exists []. rewrite app_nil_r. split; [exact B|discriminate].
      * exists []. rewrite app_nil_r. split; [exact B|discriminate].
      * exists [f]. split; [exact B|discriminate].
Qed.

(** *** More properties of the run driver *)

(** X3.  A batch that runs to its end writes nothing when its index is off
    the [save_every] cadence.  On the cadence it writes, in this order, the
    image, the progress line (epoch counted from 1, batch index, number of
    batches, and the two losses its [step] returned) and, when the index is
    also a multiple of 100, the checkpoint followed by the animation. *)
Theorem batch_writes_in_order epochs n e i imgs (w w' : World) :
  train_batch G T epochs n e i imgs w = (w', Ok tt) ->
  exists w1 dec vq gan,
    step G T imgs w = (w1, Ok (dec, vq, gan)) /\
    output w' =
    output w ++
    (if cadence (self w) i then
       [SaveImage (cat (take 4 imgs) (take 4 dec)) (image_path (self w) e i) 4;
        Print (Z.of_nat e + 1) epochs (Z.of_nat i) (Z.of_nat n) vq gan] ++
       (if hundredth i
        then [TorchSave (params (vqgan (self w'))) (checkpoint_path (self w) e);
              MimSave "movie.gif" (gif_images (self w')) 5]
        else [])
     else []).
Proof.
  intro H. apply train_batch_completed in H.
  destruct H as (w1 & dec & vq & gan & S & Hv & _ & H).
  exists w1, dec, vq, gan. split; [exact S|].
  destruct (cadence (self w) i).
  - destruct H as (sb & rec & idx & q & f & _ & _ & _ & _ & Hg & Ho).
    rewrite Ho, Hg, Hv. reflexivity.
  - destruct H as (_ & _ & Ho). rewrite Ho, app_nil_r. reflexivity.
Qed.

(** X4.  On the cadence, the image written shows the reconstruction that
    the generator made with the parameters it had before the batch's
    update, while the frame appended to the animation is rendered from the
    sample batch with the parameters after the update. *)
Theorem image_before_update_frame_after epochs n e i imgs (w w' : World) :
  train_batch G T epochs n e i imgs w = (w', Ok tt) ->
  cadence (self w) i = true ->
  exists dec idx q_loss sb reconstruction idx' q' f,
    forward G (params (vqgan (self w))) imgs = Ok (dec, idx, q_loss) /\
    In (SaveImage (cat (take 4 imgs) (take 4 dec)) (image_path (self w) e i) 4)
       (output w') /\
    sample_batch (self w') = Some sb /\
    forward G (params (vqgan (self w'))) sb = Ok (reconstruction, idx', q') /\
    make_grid T (cat sb reconstruction) = Ok f /\
    gif_images (self w') = gif_images (self w) ++ [f].
Proof.
  intros H C. apply train_batch_completed in H.
  destruct H as (w1 & dec & vq & gan & S & Hv & _ & H). rewrite C in H.
  destruct H as (sb & rec & idx' & q' & f & _ & Hf & Hm & Hs & Hg & Ho).
  apply step_inv in S.
  destruct S as (idx & q_loss & p & diff & pr & dr & df & gate & lam & w2 &
                 Hfwd & _).
  exists dec, idx, q_loss, sb, rec, idx', q', f.
  repeat split; try assumption.
  - rewrite Ho. apply in_or_app. right. left. reflexivity.
  - rewrite Hv. exact Hf.
Qed.

(** X5.  The frame buffer only grows: whatever the outcome of a run, the
    buffer it leaves starts with the buffer it found, and a run that
    completes has appended exactly one frame for each image it was
    scheduled to write. *)
Theorem frame_buffer_only_grows epochs dataloader (w w' : World) r :
  train G T epochs dataloader w = (w', r) ->
  exists fs,
    gif_images (self w') = gif_images (self w) ++ fs /\
    (r = Ok tt ->
     length fs =
     length (scheduled_images (self w) (iterations epochs dataloader))).
Proof.
  intro H. rewrite train_iterations in H. apply run_frames in H. exact H.
Qed.

(** X6.  Whenever a batch writes the animation, it goes to [movie.gif] at
    5 frames per second, holds the whole frame buffer including the frame
    this batch has just appended, and follows the checkpoint of the same
    batch. *)
Theorem movie_holds_all_frames epochs n e i imgs (w w' : World) r :
  train_batch G T epochs n e i imgs w = (w', r) ->
  exists new,
    output w' = output w ++ new /\
    forall path frames fps,
      In (MimSave path frames fps) new ->
      path = "movie.gif"%string /\ fps = 5%Z /\
      (Z.of_nat i mod save_every (self w) =? 0)%Z = true /\
      (Z.of_nat i mod 100 =? 0)%Z = true /\
      frames = gif_images (self w') /\
      (exists f, frames = gif_images (self w) ++ [f]) /\
      In (TorchSave (params (vqgan (self w'))) (checkpoint_path (self w) e))
         new.
Proof.
  intro H. apply train_batch_reports in H.
  destruct H as (new & Hn & _ & Hm). exists new. split; [exact Hn|].
  intros path frames fps HIn.
  destruct (Hm _ _ _ HIn) as (A & B & C & D & E & F & _ & K).
  repeat split; assumption.
Qed.

(** X7.  Every progress line of a run, whatever its outcome, shows an epoch
    between 1 and [epochs], the number of epochs itself, and a batch index
    below the number of batches of that epoch's pass. *)
Theorem progress_line_in_range epochs dataloader (w w' : World) r :
  train G T epochs dataloader w = (w', r) ->
  exists new,
    output w' = output w ++ new /\
    forall a b c d vq gan,
      In (Print a b c d vq gan) new ->
      (1 <= a <= epochs)%Z /\ b = epochs /\ (0 <= c < d)%Z /\
      d = Z.of_nat (length (dataloader (Z.to_nat (a - 1)))).
Proof.
  intro H. rewrite train_iterations in H. apply run_reports in H.
  destruct H as (new & Hn & H). exists new. split; [exact Hn|].
  intros a b c d vq gan HIn.
  destruct (H _ _ _ _ _ _ HIn) as (e & n & i & x & Hin & -> & -> & -> & ->).
  apply iterations_in in Hin. destruct Hin as (He & -> & Hx).
  assert (Hi : (i < length (dataloader e))%nat).
  { apply nth_error_Some. rewrite Hx. discriminate. }
  replace (Z.to_nat (Z.of_nat e + 1 - 1)) with e by lia.
  repeat split; lia.
Qed.

(** X8.  A run stops at the first batch that raises: the exception of that
    batch is the exception of [train], the world is the one the failing
    batch left, and no later batch or epoch is processed. *)
Theorem run_stops_at_first_failure
        epochs dataloader (w0 wk w' : World) pre it post err :
  iterations epochs dataloader = pre ++ it :: post ->
  for_each pre (train_iteration G T epochs) w0 = (wk, Ok tt) ->
  train_iteration G T epochs it wk = (w', Raise err) ->
  train G T epochs dataloader w0 = (w', Raise err) /\
  (global_step (self w') <=
   global_step (self w0) + Z.of_nat (length pre) + 1)%Z.
Proof.
  intros Hits Hpre Hit. split.
  - rewrite train_iterations, Hits, for_each_app, Hpre, for_each_cons, Hit.
    reflexivity.
  - apply run_counter in Hpre. destruct Hpre as (_ & _ & Hk).
    specialize (Hk eq_refl). destruct it as [[[e n] i] imgs].
    cbn [train_iteration] in Hit. apply train_batch_counter in Hit.
    destruct Hit as [_ Hit].
    destruct (step G T imgs wk) as [w1 [x|e1]]; [lia|].
    destruct Hit as [Hit _]. lia.
Qed.

(** X9.  [save_every = 0] does not switch the periodic output off: the
    first batch raises [ZeroDivisionError] at the cadence test, after its
    [step] has updated the networks and the counter has been incremented,
    and nothing has been written. *)
Theorem save_every_zero_raises_after_first_step
        epochs dataloader (w w1 : World) e n i imgs rest x :
  save_every (self w) = 0%Z ->
  iterations epochs dataloader = (e, n, i, imgs) :: rest ->
  step G T imgs w = (w1, Ok x) ->
  train G T epochs dataloader w =
  (mkWorld (set_global_step (global_step (self w) + 1) (self w1)) (output w),
   Raise ZeroDivisionError).
Proof.
  intros Hz Hits S. rewrite train_iterations, Hits, for_each_cons.
  cbn [train_iteration]. unfold train_batch, bind. rewrite S.
  destruct x as [[dec vq] gan].
  pose proof S as F. apply step_frame in F.
  destruct F as (Hh & Hc & _ & _ & Ho).
  apply hyperparameters_inv in Hh. destruct Hh as (_ & _ & _ & _ & _ & Hs).
  unfold update, get_self, call, py_mod.
  cbn [self output save_every set_global_step].
  rewrite Hs, Hz, Hc, Ho. reflexivity.
Qed.

(** X10.  A run without batches, because [epochs] is not positive or
    because every pass of the data loader is empty, returns normally and
    leaves the world as it was. *)
Theorem train_without_batches epochs dataloader (w : World) :
  (epochs <= 0)%Z \/ (forall e, dataloader e = []) ->
  train G T epochs dataloader w = (w, Ok tt).
Proof.
  intros [H|H]; rewrite train_iterations; unfold iterations.
  - unfold range. replace (Z.to_nat epochs) with 0%nat by lia. reflexivity.
  - induction (range epochs) as [|e l IH]; [reflexivity|].
    cbn [flat_map]. rewrite H. exact IH.
Qed.

(** X11.  [step] touches the two networks and their optimisers only:
    whatever its outcome, the hyperparameters, the step counter, the sample
    batch, the frame buffer and the output are as before. *)
Theorem step_touches_networks_only (imgs : Batch) (w w' : World) r :
  step G T imgs w = (w', r) ->
  hyperparameters (self w') = hyperparameters (self w) /\
  global_step (self w') = global_step (self w) /\
  sample_batch (self w') = sample_batch (self w) /\
  gif_images (self w') = gif_images (self w) /\
  output w' = output w.
Proof. apply step_frame. Qed.

(** X12.  A run, whatever its outcome, changes no hyperparameter and only
    appends to the output: what was written before it is still there, in
    the same order. *)
Theorem run_keeps_hyperparameters_and_output
        epochs dataloader (w w' : World) r :
  train G T epochs dataloader w = (w', r) ->
  hyperparameters (self w') = hyperparameters (self w) /\
  exists new, output w' = output w ++ new.
Proof.
  intro H. rewrite train_iterations in H. split.
  - apply run_counter in H. apply H.
  - apply run_reports in H. destruct H as (new & Hn & _).
    exists new. exact Hn.
Qed.


(** X14.  The order of lines 151-157, for a tensor library whose
    [zero_grad] clears gradient buffers and whose [backward] adds the
    gradient of a loss to them.  When both backward passes return, the
    generator's buffers hold the gradient of the generator loss plus that
    of the discriminator loss, the reconstruction not being detached; the
    discriminator's buffers hold the gradient of the discriminator loss
    alone, what the generator loss had left there having been cleared. *)
Theorem gradients_after_backward_passes
        (zero : Grads) (add : Grads -> Grads -> Grads)
        (gradient : Loss -> Weights -> Weights -> Batch ->
                    result (Grads * Grads))
        (imgs : Batch) (w w' : World) :
  (forall g, zero_grad T g = Ok zero) ->
  (forall l s x,
      backward T l s x =
      match gradient l (params (vqgan s)) (params (discriminator s)) x with
      | Ok (gv, gd) =>
          Ok (add (grad (vqgan s)) gv, add (grad (discriminator s)) gd)
      | Raise e => Raise e
      end) ->
  backward_passes T imgs w = (w', Ok tt) ->
  exists gv1 gd1 gv2 gd2,
    gradient VqLoss (params (vqgan (self w)))
      (params (discriminator (self w))) imgs = Ok (gv1, gd1) /\
    gradient GanLoss (params (vqgan (self w)))
      (params (discriminator (self w))) imgs = Ok (gv2, gd2) /\
    grad (vqgan (self w')) = add (add zero gv1) gv2 /\
    grad (discriminator (self w')) = add zero gd2.
Proof.
  intros Hz Hb H. unfold_in H.
  repeat (reduce_in H;
          first
            [ rewrite Hz in H
            | rewrite Hb in H
            | match type of H with
              | (_, _) = (_, _) =>
                  apply pair_equal_spec in H;
                  let E1 := fresh in let E2 := fresh in
                  destruct H as [E1 E2]; try subst
              | context [match ?x with _ => _ end] =>
                  lazymatch x with
                  | context [match _ with _ => _ end] => fail
                  | _ => destruct x eqn:?
                  end
              end ]);
    try discriminate.
  do 4 eexists. repeat split; try eassumption; reflexivity.
Qed.

(** *** File names *)

Lemma append_inj_r (a b c : string) : (a ++ b = a ++ c)%string -> b = c.
Proof.
  induction a as [|x a IH]; cbn; intro H; [exact H|].
  inversion H. apply IH. assumption.
Qed.

Lemma string_of_uint_digits (d : Decimal.uint) :
  all_digits (NilEmpty.string_of_uint d) = true.
Proof. induction d; cbn; auto. Qed.

Lemma str_inj (n m : nat) : str n = str m -> n = m.
Proof.
  unfold str. intro H.
  assert (E : Nat.to_uint n = Nat.to_uint m).
  { apply (f_equal NilEmpty.uint_of_string) in H.
    rewrite !NilEmpty.usu in H. inversion H. reflexivity. }
  apply (f_equal Nat.of_uint) in E.
  rewrite !DecimalNat.Unsigned.of_to in E. exact E.
Qed.

(** A run of digits followed by something else splits in one way only. *)
Lemma digits_split (a a' : string) (c c' : ascii) (r r' : string) :
  all_digits a = true -> all_digits a' = true ->
  is_digit c = false -> is_digit c' = false ->
  (a ++ String c r = a' ++ String c' r')%string ->
  a = a' /\ String c r = String c' r'.
Proof.
  revert a'. induction a as [|x a IH]; intros [|x' a'] Ha Ha' Hc Hc' H;
    cbn [append all_digits] in *.
  - split; [reflexivity|exact H].
  - inversion H; subst. apply andb_prop in Ha'. destruct Ha' as [D _].
    congruence.
  - inversion H; subst. apply andb_prop in Ha. destruct Ha as [D _].
    congruence.
  - inversion H; subst.
    apply andb_prop in Ha. apply andb_prop in Ha'.
    destruct (IH a' (proj2 Ha) (proj2 Ha') Hc Hc' H2) as [-> E].
    split; [reflexivity|exact E].
Qed.

Lemma image_name_inj (e i e' i' : nat) :
  image_name e i = image_name e' i' -> e = e' /\ i = i'.
Proof.
  unfold image_name. intro H.
  apply (append_inj_r "epoch-") in H.
  change ("_step-" ++ str i ++ ".jpg")%string
    with (String "_" ("step-" ++ str i ++ ".jpg")) in H.
  change ("_step-" ++ str i' ++ ".jpg")%string
    with (String "_" ("step-" ++ str i' ++ ".jpg")) in H.
  apply digits_split in H;
    try apply string_of_uint_digits; try reflexivity.
  destruct H as [He H]. inversion H as [K].
  change ".jpg"%string with (String "." "jpg") in K.
  apply digits_split in K;
    try apply string_of_uint_digits; try reflexivity.
  destruct K as [Hi _]. split; apply str_inj; assumption.
Qed.

Lemma checkpoint_name_inj (e e' : nat) :
  checkpoint_name e = checkpoint_name e' -> e = e'.
Proof.
  unfold checkpoint_name. intro H.
  apply (append_inj_r "vqgan_epoch_") in H.
  change ".pt"%string with (String "." "pt") in H.
  apply digits_split in H;
    try apply string_of_uint_digits; try reflexivity.
  apply str_inj, H.
Qed.

Lemma join_step_inj (path b c : string) :
  startswith_sep b = false -> startswith_sep c = false ->
  join_step path b = join_step path c -> b = c.
Proof.
  unfold join_step. intros -> ->.
  destruct (String.eqb path "" || endswith_sep path)%bool; intro H.
  - apply append_inj_r in H. exact H.
  - apply append_inj_r in H. inversion H. reflexivity.
Qed.

Lemma image_path_inj (s : @VQGANTrainer Weights Grads Moments Frame)
      (e i e' i' : nat) :
  image_path s e i = image_path s e' i' -> e = e' /\ i = i'.
Proof.
  unfold image_path, os_path_join. cbn [fold_left]. intro H.
  apply image_name_inj. eapply join_step_inj; [| |exact H]; reflexivity.
Qed.

Lemma checkpoint_path_inj (s : @VQGANTrainer Weights Grads Moments Frame)
      (e e' : nat) :
  checkpoint_path s e = checkpoint_path s e' -> e = e'.
Proof.
  unfold checkpoint_path, os_path_join. cbn [fold_left]. intro H.
  apply checkpoint_name_inj. eapply join_step_inj; [| |exact H]; reflexivity.
Qed.

Lemma enumerate_indices_NoDup {A : Type} (l : list A) (k : nat) :
  NoDup (map fst (combine (seq k (length l)) l)).
Proof.
  revert k. induction l as [|y l IH]; intro k; cbn [length seq combine map];
    constructor; [|apply IH].
  intro H. apply in_map_iff in H. destruct H as ([i x] & E & H).
  cbn in E. subst i. apply In_combine_seq in H. lia.
Qed.

Lemma epoch_keys (dataloader : nat -> list Batch) (e : nat) :
  map iteration_key
    (map (fun '(index, imgs) =>
            (e, length (dataloader e), index, imgs))
       (enumerate (dataloader e)))
  = map (pair e) (map fst (enumerate (dataloader e))).
Proof. rewrite !map_map. apply map_ext. intros [i x]. reflexivity. Qed.

Lemma iterations_keys_NoDup dataloader (k m : nat) :
  NoDup
    (map iteration_key
       (flat_map
          (fun epoch =>
             map (fun '(index, imgs) =>
                    (epoch, length (dataloader epoch), index, imgs))
               (enumerate (dataloader epoch)))
          (seq k m))) /\
  forall e i,
    In (e, i)
       (map iteration_key
          (flat_map
             (fun epoch =>
                map (fun '(index, imgs) =>
                       (epoch, length (dataloader epoch), index, imgs))
                  (enumerate (dataloader epoch)))
             (seq k m))) ->
    (k <= e)%nat.
Proof.
  revert k. induction m as [|m IH]; intro k.
  - cbn. split; [constructor|intros ? ? []].
  - cbn [seq flat_map]. rewrite map_app.
    rewrite (epoch_keys dataloader k).
    destruct (IH (S k)) as [N B]. split.
    + apply NoDup_app; [|exact N|].
      * apply NoDup_map_NoDup_ForallPairs.
        -- intros a b _ _ E. inversion E. reflexivity.
        -- apply enumerate_indices_NoDup.
      * intros [e i] H1 H2. apply B in H2.
        apply in_map_iff in H1. destruct H1 as (j & E & _).
        inversion E. lia.
    + intros e i H. apply in_app_or in H. destruct H as [H|H].
      * apply in_map_iff in H. destruct H as (j & E & _).
        inversion E. lia.
      * apply B in H. lia.
Qed.

Lemma scheduled_images_NoDup
      (s : @VQGANTrainer Weights Grads Moments Frame) its :
  NoDup (map iteration_key its) -> NoDup (scheduled_images s its).
Proof.
  induction its as [|[[[e n] i] x] its IH]; intro H; [constructor|].
  cbn [map iteration_key] in H. inversion H as [|k ks Hn Hr]; subst.
  change (scheduled_images s ((e, n, i, x) :: its))
    with ((if cadence s i then [image_path s e i] else [])
            ++ scheduled_images s its).
  destruct (cadence s i); [|exact (IH Hr)].
  constructor; [|exact (IH Hr)].
  intro K. apply Hn. unfold scheduled_images in K.
  apply in_flat_map in K. destruct K as ([[[e' n'] i'] x'] & K1 & K2).
  destruct (cadence s i'); [|destruct K2].
  destruct K2 as [K2|[]]. apply image_path_inj in K2.
  destruct K2 as [-> ->].
  apply in_map_iff. exists (e, n', i, x'). split; [reflexivity|exact K1].
Qed.

(** X15.  No two batches of a run write the same image file: the image
    path determines the epoch and the index, and the images of a run that
    completes are pairwise different files.  A checkpoint path determines
    the epoch and nothing else, so the checkpoints of one epoch go to one
    file. *)
Theorem run_never_overwrites_an_image :
  (forall (s : @VQGANTrainer Weights Grads Moments Frame) e i e' i',
      image_path s e i = image_path s e' i' -> e = e' /\ i = i') /\
  (forall (s : @VQGANTrainer Weights Grads Moments Frame) e e',
      checkpoint_path s e = checkpoint_path s e' <-> e = e') /\
  (forall epochs dataloader (w w' : World),
      train G T epochs dataloader w = (w', Ok tt) ->
      exists written,
        image_paths (output w') = image_paths (output w) ++ written /\
        NoDup written).
Proof.
  split; [|split].
  - intros s e i e' i'. apply image_path_inj.
  - intros s e e'. split; [apply checkpoint_path_inj|intros ->; reflexivity].
  - intros epochs dataloader w w' H. rewrite train_iterations in H.
    apply run_output in H. destruct H as [H _].
    exists (scheduled_images (self w) (iterations epochs dataloader)).
    split; [exact H|].
    apply scheduled_images_NoDup. unfold iterations, range.
    apply iterations_keys_NoDup.
Qed.

(** X16.  For a directory name that is not empty and does not end in a
    separator, every image of a run lies directly in the directory that
    [__init__] has emptied.  For the empty name it does not: [__init__]
    empties [/reconstructed_imgs] under the root, while the images go to
    [reconstructed_imgs] under the working directory. *)
Theorem images_in_cleaned_directory
        (model disc : @Net Weights Grads) (o1 o2 : Moments) (df : Q) (ds : Z)
        (plf rlf : Q) (se : Z) (dir : string) (e i : nat) :
  let w0 := @init Weights Grads Moments Frame model disc o1 o2 df ds plf rlf
              se dir in
  let cleaned := (dir ++ "/reconstructed_imgs")%string in
  output w0 = [CleanDirectory cleaned] /\
  (plain_dir dir ->
   image_path (self w0) e i = (cleaned ++ "/" ++ image_name e i)%string) /\
  (dir = EmptyString ->
   cleaned = "/reconstructed_imgs"%string /\
   image_path (self w0) e i
   = ("reconstructed_imgs/" ++ image_name e i)%string).
Proof.
  intros w0 cleaned. split; [reflexivity|]. split.
  - intro P. rewrite image_path_plain by exact P.
    unfold cleaned, image_name, w0.
    cbn [init self expriment_save_dir]. rewrite string_app_assoc.
    reflexivity.
  - intros ->. split; reflexivity.
Qed.

(** *** Which batches leave files *)

Lemma In_combine_seq_intro {A : Type} (l : list A) (k i : nat) (x : A) :
  nth_error l i = Some x -> In ((k + i)%nat, x) (combine (seq k (length l)) l).
Proof.
  revert k i. induction l as [|y l IH]; intros k [|i] H; cbn in H;
    try discriminate.
  - inversion H; subst. rewrite Nat.add_0_r. left. reflexivity.
  - cbn [length seq combine]. right.
    replace (k + S i)%nat with (S k + i)%nat by lia. apply IH, H.
Qed.

(** Every batch of every pass below [epochs] is processed. *)
Lemma iterations_complete epochs dataloader e i x :
  (Z.of_nat e < epochs)%Z ->
  nth_error (dataloader e) i = Some x ->
  In (e, length (dataloader e), i, x) (iterations epochs dataloader).
Proof.
  intros He Hx. unfold iterations. apply in_flat_map. exists e. split.
  - unfold range. apply in_seq. lia.
  - apply in_map_iff. exists (i, x). split; [reflexivity|].
    unfold enumerate. apply (In_combine_seq_intro _ 0), Hx.
Qed.

(** X17.  In a run that completes, every epoch whose pass of the data
    loader is not empty leaves the image of its first batch and a
    checkpoint, whatever [save_every] is: index 0 passes both tests. *)
Theorem every_epoch_leaves_a_checkpoint
        epochs dataloader (w w' : World) e x tl :
  train G T epochs dataloader w = (w', Ok tt) ->
  (Z.of_nat e < epochs)%Z ->
  dataloader e = x :: tl ->
  In (image_path (self w) e 0) (image_paths (output w')) /\
  In (checkpoint_path (self w) e) (checkpoint_paths (output w')).
Proof.
  intros H He Hd. rewrite train_iterations in H. apply run_output in H.
  destruct H as [Hi Hc].
  assert (K : In (e, length (dataloader e), 0%nat, x)
                 (iterations epochs dataloader)).
  { apply iterations_complete; [exact He|]. rewrite Hd. reflexivity. }
  assert (C : cadence (self w) 0 = true).
  { unfold cadence. cbn [Z.of_nat]. rewrite Zmod_0_l. reflexivity. }
  split.
  - rewrite Hi. apply in_or_app. right. unfold scheduled_images.
    apply in_flat_map. eexists. split; [exact K|].
    cbv beta iota. rewrite C. left. reflexivity.
  - rewrite Hc. apply in_or_app. right. unfold scheduled_checkpoints.
    apply in_flat_map. eexists. split; [exact K|].
    cbv beta iota. rewrite C. left. reflexivity.
Qed.

(** X18.  The two nested tests of lines 183 and 221 together select the
    indices that are multiples of the least common multiple of
    [save_every] and 100: a batch that runs to its end writes a checkpoint
    exactly when its index is such a multiple. *)
Theorem checkpoint_on_multiples_of_lcm epochs n e i imgs (w w' : World) :
  train_batch G T epochs n e i imgs w = (w', Ok tt) ->
  save_every (self w) <> 0%Z /\
  checkpoint_paths (output w') =
  checkpoint_paths (output w) ++
  (if (Z.of_nat i mod Z.lcm (save_every (self w)) 100 =? 0)%Z
   then [checkpoint_path (self w) e] else []).
Proof.
  intro H. apply train_batch_output in H. destruct H as (Hz & _ & Hc).
  split; [exact Hz|]. rewrite Hc. f_equal.
  assert (L : Z.lcm (save_every (self w)) 100 <> 0%Z).
  { intro E. apply Z.lcm_eq_0 in E. destruct E; [contradiction|discriminate]. }
  assert (E : (cadence (self w) i && hundredth i)%bool =
              (Z.of_nat i mod Z.lcm (save_every (self w)) 100 =? 0)%Z).
  { unfold cadence, hundredth. apply Bool.eq_iff_eq_true.
    rewrite andb_true_iff, !Z.eqb_eq.
    rewrite !Z.mod_divide by (assumption || discriminate).
    split.
    - intros [A B]. apply Z.lcm_least; assumption.
    - intro A. split.
      + eapply Z.divide_trans; [apply Z.divide_lcm_l|exact A].
      + eapply Z.divide_trans; [apply Z.divide_lcm_r|exact A]. }
  rewrite E. reflexivity.
Qed.

End Facts.

(** ** The helpers as the specification describes them *)

Lemma clamp_bounds (x lo hi : Q) : lo <= hi -> lo <= clamp x lo hi <= hi.
Proof.
  intro H. unfold clamp.
  destruct (Qle_bool lo x) eqn:A.
  - apply Qle_bool_iff in A.
    destruct (Qle_bool x hi) eqn:B.
    + apply Qle_bool_iff in B. split; assumption.
    + split; [exact H|apply Qle_refl].
  - destruct (Qle_bool lo hi) eqn:B.
    + split; [apply Qle_refl|exact H].
    + split; [exact H|apply Qle_refl].
Qed.

(** C3.  With [adopt_weight] as the specification describes it, the gate
    factor that [step] computes from the trainer is exactly 0 while the
    counter is below [disc_start] and exactly [disc_factor] from
    [disc_start] on, the boundary included; [step] behaves as the step whose
    gate is that value. *)
Theorem gate_factor_hard_step
        {Weights Grads Moments Indices Frame : Type}
        (fwd : Weights -> Batch -> result (Batch * Indices * Q))
        (norms : @VQGANTrainer Weights Grads Moments Frame -> Batch -> Q * Q)
        (T : @Library Weights Grads Moments Frame)
        (imgs : Batch) (w : @World Weights Grads Moments Frame) :
  let G := VQGANModel.make fwd norms in
  let s := self w in
  let gate := if (global_step s <? disc_start s)%Z then 0 else disc_factor s in
  gate_factor G s = Ok gate /\
  gate_factor G (set_global_step (disc_start s) s) = Ok (disc_factor s) /\
  step G T imgs w = step (with_gate G (Ok gate)) T imgs w.
Proof.
  intros G s gate.
  assert (A : forall s0 : @VQGANTrainer Weights Grads Moments Frame,
             gate_factor G s0 =
             Ok (if (global_step s0 <? disc_start s0)%Z
                 then 0 else disc_factor s0)).
  { intro s0. unfold gate_factor, G. cbn [VQGANModel.make adopt_weight].
    unfold VQGANModel.adopt_weight.
    destruct (Z.leb_spec (disc_start s0) (global_step s0));
      destruct (Z.ltb_spec (global_step s0) (disc_start s0));
      try reflexivity; lia. }
  split; [apply A|]. split.
  - rewrite A. cbn [global_step disc_start disc_factor set_global_step].
    rewrite Z.ltb_irrefl. reflexivity.
  - unfold step, forward_and_backward, losses, bind, get_self.
    rewrite (A (self w)). reflexivity.
Qed.

(** C9.  With [calculate_lambda] as the specification describes it, the
    coefficient lies between 0 and 1e4 whatever the two gradient magnitudes
    are, a zero magnitude of either term included; so does the coefficient
    that the generator model hands to [step]. *)
Theorem lambda_within_bounds :
  (forall perceptual_grad_norm gan_grad_norm : Q,
      0 <= VQGANModel.calculate_lambda perceptual_grad_norm gan_grad_norm
      <= 10000) /\
  (forall gan_grad_norm : Q,
      VQGANModel.calculate_lambda 0 gan_grad_norm == 0) /\
  (forall perceptual_grad_norm : Q,
      0 <= VQGANModel.calculate_lambda perceptual_grad_norm 0 <= 10000) /\
  (forall (Weights Grads Moments Indices Frame : Type)
          (fwd : Weights -> Batch -> result (Batch * Indices * Q))
          (norms : @VQGANTrainer Weights Grads Moments Frame -> Batch -> Q * Q)
          s imgs perceptual_rec_loss g_loss,
      exists lambda,
        calculate_lambda (VQGANModel.make fwd norms) s imgs
          perceptual_rec_loss g_loss = Ok lambda /\
        0 <= lambda <= 10000).
Proof.
  assert (B : forall a b, 0 <= VQGANModel.calculate_lambda a b <= 10000).
  { intros a b. apply clamp_bounds. discriminate. }
  split; [exact B|]. split; [|split; [intro; apply B|]].
  - intro g. unfold VQGANModel.calculate_lambda, clamp. cbv zeta.
    assert (Z : 0 / g == 0) by (unfold Qdiv; apply Qmult_0_l).
    assert (C : Qle_bool (0 / g) 10000 = true).
    { apply Qle_bool_iff. rewrite Z. discriminate. }
    destruct (Qle_bool 0 (0 / g)); [|reflexivity].
    rewrite C. exact Z.
  - intros. eexists. split; [reflexivity|]. apply B.
Qed.

(** ** The helpers on small inputs *)

Example str_decimal : str 0 = "0"%string /\ str 120 = "120"%string.
Proof. split; reflexivity. Qed.

Example os_path_join_plain :
  os_path_join "./experiments"
    ["reconstructed_imgs"; "epoch-0_step-100.jpg"]%string
  = "./experiments/reconstructed_imgs/epoch-0_step-100.jpg"%string.
Proof. reflexivity. Qed.

Example os_path_join_trailing_separator :
  os_path_join "out/" ["vqgan_epoch_3.pt"%string]
  = "out/vqgan_epoch_3.pt"%string.
Proof. reflexivity. Qed.

Example os_path_join_empty_directory :
  os_path_join "" ["vqgan_epoch_3.pt"%string] = "vqgan_epoch_3.pt"%string.
Proof. reflexivity. Qed.

Example py_mod_by_zero : py_mod 5 0 = Raise ZeroDivisionError.
Proof. reflexivity. Qed.

Example py_mod_sign_of_divisor : py_mod 5 (-3) = Ok (-1)%Z.
Proof. reflexivity. Qed.

Example mean_of_three : mean [1; 2; 3] == 2.
Proof. reflexivity. Qed.

Example relu_clips_below : relu (- (1 # 2)) = 0 /\ relu (1 # 2) = 1 # 2.
Proof. split; reflexivity. Qed.

Example clamp_clips_both_ways :
  clamp 20000 0 10000 = 10000 /\ clamp (-1) 0 10000 = 0 /\
  clamp (1 # 2) 0 10000 = 1 # 2.
Proof. repeat split; reflexivity. Qed.

Example adopt_weight_boundary :
  VQGANModel.adopt_weight 1 99 100 = 0 /\
  VQGANModel.adopt_weight 1 100 100 = 1.
Proof. split; reflexivity. Qed.

Example sub_size_mismatch :
  sub [[1; 2]] [[1]] = Raise (RuntimeError "size mismatch").
Proof. reflexivity. Qed.

(** ** Concrete runs *)

(** The scenario of C1 on the stand-ins: warm-up (counter 0 below
    [disc_start = 100]), identity reconstruction, zero quantisation loss and
    zero perceptual distance. *)
Lemma step_generator_loss_witness :
  let G := Stub.generator in
  let T := Stub.library true in
  let w := Stub.trainer 100 100 0 in
  let w1 := fst (backward_passes T [Stub.image] w) in
  let w' := fst (optimizer_steps T w1) in
  exists vq_loss gan_loss,
    step G T [Stub.image] w = (w', Ok ([Stub.image], vq_loss, gan_loss)) /\
    vq_loss == 0.
Proof.
  intros G T w w1 w'.
  edestruct (@step_generator_loss _ _ _ _ _ G T [Stub.image] w w1 w'
               [Stub.image] tt 0 [0]
               [[(1 # 2) - (1 # 2); (1 # 4) - (1 # 4)]]
               [[1 * 0 + 1 * Qabs ((1 # 2) - (1 # 2));
                 1 * 0 + 1 * Qabs ((1 # 4) - (1 # 4))]]
               [1] [1] 0 1)
    as (vq & gan & S & _ & Z); try (vm_compute; reflexivity).
  exists vq, gan. split; [exact S|].
  apply Z.
  - reflexivity.
  - repeat constructor.
  - repeat constructor.
  - reflexivity.
  - discriminate.
Defined.

(** The same step: the discriminator loss under a zero gate factor. *)
Lemma step_discriminator_loss_witness :
  let G := Stub.generator in
  let T := Stub.library true in
  let w := Stub.trainer 100 100 0 in
  let w1 := fst (backward_passes T [Stub.image] w) in
  let w' := fst (optimizer_steps T w1) in
  exists vq_loss gan_loss,
    step G T [Stub.image] w = (w', Ok ([Stub.image], vq_loss, gan_loss)) /\
    gan_loss == 0.
Proof.
  intros G T w w1 w'.
  edestruct (@step_discriminator_loss _ _ _ _ _ G T [Stub.image] w w1 w'
               [Stub.image] tt 0 [0]
               [[(1 # 2) - (1 # 2); (1 # 4) - (1 # 4)]]
               [[1 * 0 + 1 * Qabs ((1 # 2) - (1 # 2));
                 1 * 0 + 1 * Qabs ((1 # 4) - (1 # 4))]]
               [1] [1] 0 1)
    as (vq & gan & S & _ & Z); try (vm_compute; reflexivity).
  exists vq, gan. split; [exact S|].
  apply Z.
  - reflexivity.
  - discriminate.
  - discriminate.
Defined.

(** Two epochs of three batches move the counter from 0 to 6. *)
Lemma global_step_counts_witness :
  let run :=
    train Stub.generator (Stub.library true) 2 (Stub.loader 3 1)
      (Stub.trainer 0 2 0) in
  snd run = Ok tt /\ global_step (self (fst run)) = 6%Z.
Proof.
  intro run.
  assert (E : run = (fst run, Ok tt)) by (vm_compute; reflexivity).
  split; [vm_compute; reflexivity|].
  destruct (global_step_counts Stub.generator (Stub.library true))
    as (_ & _ & _ & H).
  exact (proj2 (H 2%Z (Stub.loader 3 1) (Stub.trainer 0 2 0) _ _ E) eq_refl).
Defined.

(** With [disc_start = 2], the third batch of a run is processed with the
    counter at 2 and gated with [disc_factor]. *)
Lemma gate_reads_counter_witness :
  let G := Stub.generator in
  let T := Stub.library true in
  let w0 := Stub.trainer 2 100 0 in
  let its := iterations 1 (Stub.loader 3 1) in
  let wk := fst (for_each (firstn 2 its) (train_iteration G T 1) w0) in
  global_step (self wk) = 2%Z /\ gate_factor G (self wk) = Ok 1%Q.
Proof.
  intros G T w0 its wk.
  edestruct (@gate_reads_counter_before_increment _ _ _ _ _ G T 1
               (Stub.loader 3 1) w0 wk (firstn 2 its) 0%nat 3%nat 2%nat
               [Stub.image] [])
    as (_ & Hk & Hg & _); try (vm_compute; reflexivity).
  split; [exact Hk|exact Hg].
Defined.

(** Two epochs of three batches with [save_every = 2]: one checkpoint per
    epoch, at index 0. *)
Lemma checkpoint_written_on_both_tests_witness :
  let run :=
    train Stub.generator (Stub.library true) 2 (Stub.loader 3 1)
      (Stub.trainer 0 2 0) in
  snd run = Ok tt /\
  checkpoint_paths (output (fst run)) =
  ["./experiments/vqgan_epoch_0.pt"; "./experiments/vqgan_epoch_1.pt"]%string.
Proof.
  intro run.
  assert (E : run = (fst run, Ok tt)) by (vm_compute; reflexivity).
  split; [vm_compute; reflexivity|].
  destruct (checkpoint_written_on_both_tests Stub.generator
              (Stub.library true)) as (H & _).
  rewrite (H 2%Z (Stub.loader 3 1) (Stub.trainer 0 2 0) _ E).
  vm_compute. reflexivity.
Defined.

(** The same run: images at indices 0 and 2 of each epoch. *)
Lemma image_written_on_cadence_witness :
  let run :=
    train Stub.generator (Stub.library true) 2 (Stub.loader 3 1)
      (Stub.trainer 0 2 0) in
  snd run = Ok tt /\
  image_paths (output (fst run)) =
  ["./experiments/reconstructed_imgs/epoch-0_step-0.jpg";
   "./experiments/reconstructed_imgs/epoch-0_step-2.jpg";
   "./experiments/reconstructed_imgs/epoch-1_step-0.jpg";
   "./experiments/reconstructed_imgs/epoch-1_step-2.jpg"]%string.
Proof.
  intro run.
  assert (E : run = (fst run, Ok tt)) by (vm_compute; reflexivity).
  split; [vm_compute; reflexivity|].
  destruct (image_written_on_cadence Stub.generator (Stub.library true))
    as (H & _).
  rewrite (H 2%Z (Stub.loader 3 1) (Stub.trainer 0 2 0) _ E).
  vm_compute. reflexivity.
Defined.

(** A run over batches of two images keeps the first image of its first
    batch. *)
Lemma sample_batch_fixed_once_witness :
  let run :=
    train Stub.generator (Stub.library true) 2 (Stub.loader 3 2)
      (Stub.trainer 0 2 0) in
  snd run = Ok tt /\ sample_batch (self (fst run)) = Some [Stub.image].
Proof.
  intro run.
  assert (E : run = (fst run, Ok tt)) by (vm_compute; reflexivity).
  split; [vm_compute; reflexivity|].
  destruct (sample_batch_fixed_once Stub.generator (Stub.library true))
    as (_ & H & _).
  edestruct (H 2%Z (Stub.loader 3 2) (Stub.trainer 0 2 0) (fst run) (Ok tt)
               0%nat 3%nat 0%nat [Stub.image; Stub.image])
    as (_ & K & _); [ | | exact E | exact (K eq_refl)];
    vm_compute; reflexivity.
Defined.

(** A failing perceptual scorer: the step fails and the world is as
    before. *)
Lemma step_updates_after_backward_witness :
  let w := Stub.trainer 0 100 0 in
  step Stub.generator (Stub.library false) [Stub.image] w
  = (w, Raise (RuntimeError "perceptual scorer failed")).
Proof.
  intro w.
  destruct (step_updates_after_backward Stub.generator (Stub.library false)
              [Stub.image] w) as (_ & _ & _ & H).
  exact (H [Stub.image] tt 0%Q _ eq_refl eq_refl).
Defined.

(** ** Runs on which the specification and the code part *)

(** C4 as stated fails.  With the default [save_every = 100], an epoch of
    101 batches writes its checkpoint at index 0 and again at index 100,
    the second occurrence of the cadence; every 100th occurrence would
    mean one checkpoint. *)
Lemma checkpoint_not_every_hundredth_occurrence :
  let w := Stub.trainer 0 100 0 in
  let run :=
    train Stub.generator (Stub.library true) 1 (Stub.loader 101 1) w in
  snd run = Ok tt /\
  checkpoint_paths (output (fst run)) =
    ["./experiments/vqgan_epoch_0.pt"; "./experiments/vqgan_epoch_0.pt"]%string /\
  claimed_checkpoints (self w) (iterations 1 (Stub.loader 101 1)) =
    ["./experiments/vqgan_epoch_0.pt"]%string /\
  checkpoint_paths (output (fst run)) <>
    claimed_checkpoints (self w) (iterations 1 (Stub.loader 101 1)).
Proof. vm_compute. repeat split. discriminate. Qed.

(** C7 as stated fails.  When the discriminator optimiser's [step()]
    raises, [step] raises after the generator's parameters and moments have
    been updated. *)
Lemma step_not_atomic :
  let w := Stub.trainer 0 100 (-1) in
  exists w' e,
    step Stub.generator (Stub.library true) [Stub.image] w = (w', Raise e) /\
    params (vqgan (self w)) = 0%Z /\
    params (vqgan (self w')) = (-2)%Z /\
    learned (self w') <> learned (self w).
Proof.
  intro w. do 2 eexists. split; [vm_compute; reflexivity|].
  vm_compute. repeat split. discriminate.
Qed.

(** C8 as stated fails.  On a batch of one image the visualisation holds
    one real and one reconstructed sample, not four of each. *)
Lemma image_not_four_plus_four :
  let run :=
    train Stub.generator (Stub.library true) 1 (Stub.loader 1 1)
      (Stub.trainer 0 100 0) in
  snd run = Ok tt /\
  In (SaveImage [Stub.image; Stub.image]
        "./experiments/reconstructed_imgs/epoch-0_step-0.jpg" 4)
     (output (fst run)) /\
  length [Stub.image; Stub.image] <> 8%nat.
Proof.
  vm_compute. split; [reflexivity|]. split; [|discriminate].
  right. left. reflexivity.
Qed.

(** ** Concrete runs for the further properties *)

(** A step after warm-up ([disc_start = 0]): the discriminator loss is not
    negative. *)
Lemma discriminator_loss_hinge_witness :
  exists w' dec vq gan,
    step Stub.generator (Stub.library true) [Stub.image] (Stub.trainer 0 100 0)
    = (w', Ok (dec, vq, gan)) /\ 0 <= gan.
Proof.
  destruct (step Stub.generator (Stub.library true) [Stub.image]
              (Stub.trainer 0 100 0))
    as [w' [[[dec vq] gan]|e]] eqn:E; [|vm_compute in E; discriminate].
  exists w', dec, vq, gan. split; [reflexivity|].
  destruct (discriminator_loss_hinge _ _ _ _ E)
    as (dr & df & gate & Hr & Hf & Hg & Hpos & _).
  vm_compute in E. inversion E; subst. clear E.
  vm_compute in Hr, Hf, Hg.
  inversion Hr; inversion Hf; inversion Hg; subst.
  apply Hpos; [discriminate | discriminate | unfold Qle; cbn; lia].
Defined.

(** A step during warm-up ([disc_start = 100]) with an exact
    reconstruction: the generator loss is the reconstruction-perceptual
    loss plus the quantisation loss, here 0. *)
Lemma generator_loss_warm_up_witness :
  exists w' dec vq gan,
    step Stub.generator (Stub.library true) [Stub.image]
      (Stub.trainer 100 100 0)
    = (w', Ok (dec, vq, gan)) /\ vq == 0.
Proof.
  destruct (step Stub.generator (Stub.library true) [Stub.image]
              (Stub.trainer 100 100 0))
    as [w' [[[dec vq] gan]|e]] eqn:E; [|vm_compute in E; discriminate].
  exists w', dec, vq, gan. split; [reflexivity|].
  destruct (generator_loss_warm_up _ _ _ _ E)
    as (idx & q_loss & p & diff & pr & gate & Hf & Hp & Hd & Hb & Hg & Hw & _).
  vm_compute in E. inversion E; subst. clear E.
  vm_compute in Hf, Hg. inversion Hf; inversion Hg; subst.
  vm_compute in Hp. inversion Hp; subst.
  vm_compute in Hd. inversion Hd; subst.
  vm_compute in Hb. inversion Hb; subst.
  rewrite Hw; reflexivity.
Defined.

(** The first batch of a run with [save_every = 2]: image, progress line,
    checkpoint and animation follow the directory cleaning. *)
Lemma batch_writes_in_order_witness :
  exists w',
    train_batch Stub.generator (Stub.library true) 1 3 0 0 [Stub.image]
      (Stub.trainer 0 2 0) = (w', Ok tt) /\
    length (output w') = 5%nat.
Proof.
  destruct (train_batch Stub.generator (Stub.library true) 1 3 0 0
              [Stub.image] (Stub.trainer 0 2 0))
    as [w' [[]|e]] eqn:E; [|vm_compute in E; discriminate].
  exists w'. split; [reflexivity|].
  apply batch_writes_in_order in E.
  destruct E as (w1 & dec & vq & gan & _ & O).
  rewrite O. reflexivity.
Defined.

(** The same batch: the frame buffer holds one frame afterwards. *)
Lemma image_before_update_frame_after_witness :
  exists w',
    train_batch Stub.generator (Stub.library true) 1 3 0 0 [Stub.image]
      (Stub.trainer 0 2 0) = (w', Ok tt) /\
    length (gif_images (self w')) = 1%nat.
Proof.
  destruct (train_batch Stub.generator (Stub.library true) 1 3 0 0
              [Stub.image] (Stub.trainer 0 2 0))
    as [w' [[]|e]] eqn:E; [|vm_compute in E; discriminate].
  exists w'. split; [reflexivity|].
  apply image_before_update_frame_after in E; [|reflexivity].
  destruct E
    as (dec & idx & q & sb & rec & idx' & q' & f & _ & _ & _ & _ & _ & Hg).
  rewrite Hg. reflexivity.
Defined.

(** Two epochs of three batches with [save_every = 2]: four frames. *)
Lemma frame_buffer_only_grows_witness :
  let run :=
    train Stub.generator (Stub.library true) 2 (Stub.loader 3 1)
      (Stub.trainer 0 2 0) in
  snd run = Ok tt /\ length (gif_images (self (fst run))) = 4%nat.
Proof.
  intro run.
  assert (E : run = (fst run, Ok tt)) by (vm_compute; reflexivity).
  split; [vm_compute; reflexivity|].
  apply frame_buffer_only_grows in E. destruct E as (fs & Hg & Hl).
  rewrite Hg, length_app, (Hl eq_refl). vm_compute. reflexivity.
Defined.

(** The first batch of an epoch writes the animation with the one frame of
    the buffer. *)
Lemma movie_holds_all_frames_witness :
  let w := Stub.trainer 0 2 0 in
  let run :=
    train_batch Stub.generator (Stub.library true) 1 3 0 0 [Stub.image] w in
  In (MimSave "movie.gif" (gif_images (self (fst run))) 5)
     (output (fst run)).
Proof.
  intros w run.
  assert (E : run = (fst run, Ok tt)) by (vm_compute; reflexivity).
  apply movie_holds_all_frames in E. destruct E as (new & Hn & H).
  assert (HIn : In (MimSave "movie.gif" [[Stub.image; Stub.image]] 5) new).
  { vm_compute in Hn. inversion Hn. do 3 right. left. reflexivity. }
  destruct (H _ _ _ HIn) as (_ & _ & _ & _ & Hf & _).
  rewrite <- Hf, Hn. apply in_or_app. right. exact HIn.
Defined.

(** Two epochs of three batches: a progress line of the second epoch shows
    epoch 2 of 2 and batch 2 of 3. *)
Lemma progress_line_in_range_witness :
  let run :=
    train Stub.generator (Stub.library true) 2 (Stub.loader 3 1)
      (Stub.trainer 0 2 0) in
  exists vq gan, In (Print 2 2 2 3 vq gan) (output (fst run)).
Proof.
  intro run.
  pose proof (surjective_pairing run) as P.
  apply progress_line_in_range in P. destruct P as (new & Hn & H).
  assert (HIn : exists vq gan, In (Print 2 2 2 3 vq gan) new).
  { vm_compute in Hn. inversion Hn. do 2 eexists.
    do 11 right. left. reflexivity. }
  destruct HIn as (vq & gan & HIn).
  destruct (H _ _ _ _ _ _ HIn) as (_ & _ & _ & _).
  exists vq, gan. rewrite Hn. apply in_or_app. right. exact HIn.
Defined.

(** A failing perceptual scorer stops the run at its first batch. *)
Lemma run_stops_at_first_failure_witness :
  let w := Stub.trainer 0 2 0 in
  train Stub.generator (Stub.library false) 1 (Stub.loader 2 1) w
  = (w, Raise (RuntimeError "perceptual scorer failed")).
Proof.
  intro w.
  eapply (@run_stops_at_first_failure _ _ _ _ _ Stub.generator
            (Stub.library false) 1 (Stub.loader 2 1) w w w []
            (0%nat, 2%nat, 0%nat, [Stub.image])
            [(0%nat, 2%nat, 1%nat, [Stub.image])]);
    vm_compute; reflexivity.
Defined.

(** With [save_every = 0] the run raises after one step: the counter is
    at 1. *)
Lemma save_every_zero_raises_after_first_step_witness :
  let run :=
    train Stub.generator (Stub.library true) 1 (Stub.loader 2 1)
      (Stub.trainer 0 0 0) in
  snd run = Raise ZeroDivisionError /\ global_step (self (fst run)) = 1%Z.
Proof.
  intro run.
  destruct (step Stub.generator (Stub.library true) [Stub.image]
              (Stub.trainer 0 0 0))
    as [w1 [x|e]] eqn:S; [|vm_compute in S; discriminate].
  unfold run.
  rewrite (@save_every_zero_raises_after_first_step _ _ _ _ _ Stub.generator
             (Stub.library true) 1 (Stub.loader 2 1) (Stub.trainer 0 0 0) w1
             0%nat 2%nat 0%nat [Stub.image]
             [(0%nat, 2%nat, 1%nat, [Stub.image])] x eq_refl eq_refl S).
  split; reflexivity.
Defined.

(** A run of zero epochs. *)
Lemma train_without_batches_witness :
  train Stub.generator (Stub.library true) 0 (Stub.loader 3 1)
    (Stub.trainer 0 2 0)
  = (Stub.trainer 0 2 0, Ok tt).
Proof. apply train_without_batches. left. lia. Defined.

(** A step leaves the counter at 0 and writes nothing. *)
Lemma step_touches_networks_only_witness :
  let w := Stub.trainer 0 100 0 in
  let w' := fst (step Stub.generator (Stub.library true) [Stub.image] w) in
  global_step (self w') = 0%Z /\ output w' = output w.
Proof.
  intros w w'.
  pose proof (surjective_pairing
                (step Stub.generator (Stub.library true) [Stub.image] w))
    as P.
  apply step_touches_networks_only in P.
  destruct P as (_ & Hc & _ & _ & Ho).
  split; assumption.
Defined.

(** A run keeps [save_every]. *)
Lemma run_keeps_hyperparameters_and_output_witness :
  let w := Stub.trainer 0 2 0 in
  let w' :=
    fst (train Stub.generator (Stub.library true) 2 (Stub.loader 3 1) w) in
  save_every (self w') = 2%Z.
Proof.
  intros w w'.
  pose proof (surjective_pairing
                (train Stub.generator (Stub.library true) 2
                   (Stub.loader 3 1) w)) as P.
  apply run_keeps_hyperparameters_and_output in P. destruct P as (Hh & _).
  apply hyperparameters_inv in Hh. apply Hh.
Defined.


(** The stand-in library clears and accumulates: after the two backward
    passes the generator's buffer holds two gradients, the discriminator's
    one. *)
Lemma gradients_after_backward_passes_witness :
  let w := Stub.trainer 0 100 0 in
  let w' := fst (backward_passes (Stub.library true) [Stub.image] w) in
  grad (vqgan (self w')) = 2%Z /\ grad (discriminator (self w')) = 1%Z.
Proof.
  intros w w'.
  edestruct (@gradients_after_backward_passes _ _ _ _ (Stub.library true)
               0%Z Z.add (fun _ _ _ _ => Ok (1%Z, 1%Z)) [Stub.image] w w')
    as (gv1 & gd1 & gv2 & gd2 & E1 & E2 & Hv & Hd);
    try (vm_compute; reflexivity); try reflexivity.
  inversion E1; inversion E2; subst. split; assumption.
Defined.

(** The four images of a run of two epochs are four files. *)
Lemma run_never_overwrites_an_image_witness :
  let run :=
    train Stub.generator (Stub.library true) 2 (Stub.loader 3 1)
      (Stub.trainer 0 2 0) in
  snd run = Ok tt /\ NoDup (image_paths (output (fst run))).
Proof.
  intro run.
  assert (E : run = (fst run, Ok tt)) by (vm_compute; reflexivity).
  split; [vm_compute; reflexivity|].
  destruct (run_never_overwrites_an_image Stub.generator (Stub.library true))
    as (_ & _ & H).
  apply H in E. destruct E as (written & Hw & Hn).
  vm_compute in Hw. inversion Hw; subst. exact Hn.
Defined.

(** The default directory. *)
Lemma images_in_cleaned_directory_witness :
  image_path (self (Stub.trainer 0 100 0)) 0 100
  = "./experiments/reconstructed_imgs/epoch-0_step-100.jpg"%string.
Proof.
  destruct (@images_in_cleaned_directory Z Z Z Batch (mkNet 0%Z 0%Z)
              (mkNet 0%Z 0%Z) 0%Z 0%Z 1 0%Z 1 1 100%Z "./experiments"
              0%nat 100%nat) as (_ & H & _).
  exact (H (conj eq_refl eq_refl)).
Defined.

(** A run of two epochs of three batches leaves the checkpoint of its
    second epoch. *)
Lemma every_epoch_leaves_a_checkpoint_witness :
  let run :=
    train Stub.generator (Stub.library true) 2 (Stub.loader 3 1)
      (Stub.trainer 0 2 0) in
  In "./experiments/vqgan_epoch_1.pt"%string
     (checkpoint_paths (output (fst run))).
Proof.
  intro run.
  assert (E : run = (fst run, Ok tt)) by (vm_compute; reflexivity).
  eapply (@every_epoch_leaves_a_checkpoint _ _ _ _ _ Stub.generator
            (Stub.library true) 2 (Stub.loader 3 1) (Stub.trainer 0 2 0)
            (fst run) 1%nat [Stub.image] [[Stub.image]; [Stub.image]]).
  - exact E.
  - lia.
  - reflexivity.
Defined.

(** With [save_every = 2] the first batch of an epoch writes the
    checkpoint: 0 is a multiple of 100. *)
Lemma checkpoint_on_multiples_of_lcm_witness :
  let w := Stub.trainer 0 2 0 in
  let run :=
    train_batch Stub.generator (Stub.library true) 1 3 0 0 [Stub.image] w in
  checkpoint_paths (output (fst run)) = ["./experiments/vqgan_epoch_0.pt"%string].
Proof.
  intros w run.
  assert (E : run = (fst run, Ok tt)) by (vm_compute; reflexivity).
  apply checkpoint_on_multiples_of_lcm in E. destruct E as [_ E].
  rewrite E. vm_compute. reflexivity.
Defined.
